(** * Conversion registry and conversion driver of the file converter

    A shallow embedding of [src/registry.py], [src/logger.py] and the
    conversion loop of [src/tui/screens/progress_screen.py], with the
    properties of the route registry and of the per-file driver proved
    over it.

    Conventions of the embedding.
    - A Python [str] holding a format name or a file name is a [string]
      whose characters are read as the code points U+0000..U+00FF;
      [str.lower] is written out on that range.
    - The text of an exception message is a list of code points
      ([text]), because the messages of the registry contain U+2192.
    - A [dict] is a [gmap]; [sorted] is a merge sort for the code-point
      order on strings.
    - Code that raises returns a [Result].
    - The widgets, the codecs, the file system and the user are the
      environment of the driver: the calls made on the widgets are
      recorded in order, the outcome of a codec call and the button the
      user presses are given by a [World], and the file system is a
      small state of its own. *)

From Stdlib Require Import String Ascii NArith List.
From stdpp Require Import gmap strings list fin_maps sorting pretty.

Local Open Scope string_scope.
Local Open Scope list_scope.

(** ** Python values shared by the modules *)

Module Py.

(** Code points of a message. *)
Definition text := list N.

Definition code_points (s : string) : text :=
  map N_of_ascii (list_ascii_of_string s).

(** U+2192 RIGHTWARDS ARROW, used by the messages of the registry. *)
Definition arrow : text := [8594%N].

(** [str.lower] on one code point below U+0100: the letters A-Z and the
    Latin-1 capitals U+00C0..U+00DE (U+00D7, the multiplication sign,
    apart) move up by 32; every other code point is its own lowercase. *)
Definition lower_char (c : ascii) : ascii :=
  let n := N_of_ascii c in
  if ((65 <=? n) && (n <=? 90))%N
     || ((192 <=? n) && (n <=? 222) && negb (n =? 215))%N
  then ascii_of_N (n + 32)
  else c.

(** [s.lower()] *)
Fixpoint lower (s : string) : string :=
  match s with
  | EmptyString => EmptyString
  | String c s' => String (lower_char c) (lower s')
  end.

(** [s.lstrip(".")]: drop the leading dots. *)
Fixpoint lstrip_dot (s : string) : string :=
  match s with
  | String "."%char s' => lstrip_dot s'
  | _ => s
  end.

(** The exceptions the modelled code raises or catches: the class and
    [str(exc)]. [OtherError] stands for the classes of the codec
    libraries (all of them subclasses of [Exception]). *)
Inductive Exception : Type :=
| ValueError (msg : text)
| OSError (type_name : string) (msg : text)
| OtherError (type_name : string) (msg : text).

(** [type(exc).__name__]; for [OSError] the name of the subclass that
    was raised ([PermissionError], [FileNotFoundError], ...). *)
Definition type_name_of (e : Exception) : string :=
  match e with
  | ValueError _ => "ValueError"
  | OSError n _ => n
  | OtherError n _ => n
  end.

(** [str(exc)] *)
Definition message_of (e : Exception) : text :=
  match e with
  | ValueError m | OSError _ m | OtherError _ m => m
  end.

(** A call that returns a value or raises. *)
Inductive Result (A : Type) : Type :=
| Return (a : A)
| Raise (e : Exception).
Arguments Return {A} a.
Arguments Raise {A} e.

Definition is_return {A} (r : Result A) : bool :=
  match r with Return _ => true | Raise _ => false end.

End Py.

Import Py.

(** ** [src/registry.py] *)

Module Registry.

(** [class MediaType(Enum)] *)
Inductive MediaType : Type := IMAGE | VIDEO | AUDIO | DOCUMENT.

#[global] Instance MediaType_eq_dec : EqDecision MediaType.
Proof. solve_decision. Defined.

(** [MediaType.value] *)
Definition value (m : MediaType) : string :=
  match m with
  | IMAGE => "image"
  | VIDEO => "video"
  | AUDIO => "audio"
  | DOCUMENT => "document"
  end.

(** [EXTENSION_MEDIA_TYPE] *)
Definition EXTENSION_MEDIA_TYPE : gmap string MediaType :=
  list_to_map
    [ ("heic", IMAGE); ("jpg", IMAGE); ("jpeg", IMAGE); ("png", IMAGE);
      ("webp", IMAGE); ("gif", IMAGE); ("bmp", IMAGE); ("tiff", IMAGE);
      ("mp4", VIDEO); ("avi", VIDEO); ("mkv", VIDEO); ("mov", VIDEO);
      ("wmv", VIDEO); ("flv", VIDEO);
      ("mp3", AUDIO); ("wav", AUDIO); ("flac", AUDIO); ("aac", AUDIO);
      ("ogg", AUDIO); ("m4a", AUDIO);
      ("pdf", DOCUMENT); ("docx", DOCUMENT); ("txt", DOCUMENT) ].

(** The converter classes a route can refer to ([type[BaseConverter]]). *)
Inductive ConverterClass : Type :=
| ImageConverter | VideoConverter | AudioConverter | DocumentConverter.

#[global] Instance ConverterClass_eq_dec : EqDecision ConverterClass.
Proof. solve_decision. Defined.

(** [@dataclass(frozen=True) class ConversionRoute] *)
Record ConversionRoute : Type := mkRoute {
  source_format : string;
  target_format : string;
  converter_class : ConverterClass;
  lossy : bool
}.

#[global] Instance ConversionRoute_eq_dec : EqDecision ConversionRoute.
Proof. solve_decision. Defined.

(** [ConversionRegistry]: its only attribute is the dict [_routes]. *)
Abbreviation ConversionRegistry := (gmap (string * string) ConversionRoute).

(** [ConversionRegistry.__init__] *)
Definition init : ConversionRegistry := ∅.

(** [ConversionRegistry.register] *)
Definition register (self : ConversionRegistry) (route : ConversionRoute)
  : ConversionRegistry :=
  let key := (lower (source_format route), lower (target_format route)) in
  <[key := route]> self.

(** [ConversionRegistry.is_valid] *)
Definition is_valid (self : ConversionRegistry)
           (source_format target_format : string) : bool :=
  bool_decide (is_Some (self !! (lower source_format, lower target_format))).

(** The two messages of [get_route]. *)
Definition cross_domain_message (source_format target_format : string)
           (src_type tgt_type : MediaType) : text :=
  (code_points "Cross-domain conversion not supported: "
   ++ code_points source_format ++ code_points " ("
   ++ code_points (value src_type) ++ code_points ") " ++ arrow
   ++ code_points " " ++ code_points target_format ++ code_points " ("
   ++ code_points (value tgt_type) ++ code_points ")")%list.

Definition no_route_message (source_format target_format : string) : text :=
  (code_points "No conversion route registered for: "
   ++ code_points source_format ++ code_points " " ++ arrow
   ++ code_points " " ++ code_points target_format)%list.

(** [ConversionRegistry.get_route]. A member of a plain [Enum] is
    truthy and [None] is not, so the test
    [src_type and tgt_type and src_type != tgt_type] holds when both
    lookups succeed and the two domains differ. *)
Definition get_route (self : ConversionRegistry)
           (source_format target_format : string) : Result ConversionRoute :=
  let key := (lower source_format, lower target_format) in
  match self !! key with
  | None =>
      let src_type := EXTENSION_MEDIA_TYPE !! lower source_format in
      let tgt_type := EXTENSION_MEDIA_TYPE !! lower target_format in
      match src_type, tgt_type with
      | Some s, Some t =>
          if bool_decide (s ≠ t)
          then Raise (ValueError
                        (cross_domain_message source_format target_format s t))
          else Raise (ValueError
                        (no_route_message source_format target_format))
      | _, _ =>
          Raise (ValueError (no_route_message source_format target_format))
      end
  | Some route => Return route
  end.

(** [sorted] on a list of strings: a stable merge sort for the
    code-point order. *)
Definition sorted (l : list string) : list string := merge_sort String.le l.

(** The generator of [get_valid_targets]:
    [target for (source, target) in self._routes if source == src]. *)
Definition targets_of (self : ConversionRegistry) (src : string)
  : list string :=
  snd <$> filter (λ k : string * string, k.1 = src) (fst <$> map_to_list self).

(** [ConversionRegistry.get_valid_targets] *)
Definition get_valid_targets (self : ConversionRegistry)
           (source_format : string) : list string :=
  let src := lower source_format in
  sorted (targets_of self src).

(** [ConversionRegistry.get_media_type]; the method does not read
    [self]. *)
Definition get_media_type (extension : string) : option MediaType :=
  EXTENSION_MEDIA_TYPE !! lower extension.

(** The four tables of [build_default_registry]. *)
Definition image_routes : list (string * string * bool) :=
  [ ("heic", "jpg", true); ("heic", "png", false); ("jpg", "png", false);
    ("jpg", "webp", true); ("png", "jpg", true); ("png", "webp", false);
    ("png", "gif", false); ("webp", "jpg", true); ("webp", "png", false);
    ("gif", "png", false); ("bmp", "jpg", true); ("bmp", "png", false);
    ("tiff", "jpg", true); ("tiff", "png", false) ].

Definition video_routes : list (string * string * bool) :=
  [ ("mp4", "avi", false); ("mp4", "mkv", false); ("mp4", "mov", false);
    ("avi", "mp4", false); ("avi", "mkv", false); ("mkv", "mp4", false);
    ("mkv", "avi", false); ("mov", "mp4", false); ("mov", "avi", false) ].

Definition audio_routes : list (string * string * bool) :=
  [ ("mp3", "wav", false); ("mp3", "flac", false); ("wav", "mp3", true);
    ("wav", "flac", false); ("flac", "mp3", true); ("flac", "wav", false);
    ("aac", "mp3", true); ("aac", "wav", false); ("m4a", "mp3", true);
    ("m4a", "wav", false) ].

Definition document_routes : list (string * string * bool) :=
  [ ("pdf", "txt", false); ("docx", "txt", false) ].

(** One [for src, tgt, lossy in table: registry.register(...)] loop. *)
Definition register_all (cls : ConverterClass)
           (table : list (string * string * bool))
           (registry : ConversionRegistry) : ConversionRegistry :=
  foldl (λ reg '(src, tgt, lossy), register reg (mkRoute src tgt cls lossy))
        registry table.

(** [build_default_registry] *)
Definition build_default_registry : ConversionRegistry :=
  let registry := init in
  let registry := register_all ImageConverter image_routes registry in
  let registry := register_all VideoConverter video_routes registry in
  let registry := register_all AudioConverter audio_routes registry in
  let registry := register_all DocumentConverter document_routes registry in
  registry.

(** The module-level singleton [registry]. *)
Definition registry : ConversionRegistry := build_default_registry.

End Registry.

Import Registry.

(** ** The registry as an object with methods

  The calls a client can make on a registry, each with the registry it
  leaves behind. Only [register] assigns to [_routes]. *)

Module RegistryObject.

Inductive Call : Type :=
| CallRegister (route : ConversionRoute)
| CallIsValid (source_format target_format : string)
| CallGetRoute (source_format target_format : string)
| CallGetValidTargets (source_format : string)
| CallGetMediaType (extension : string).

Inductive Answer : Type :=
| AnsNone
| AnsBool (b : bool)
| AnsRoute (r : Result ConversionRoute)
| AnsTargets (l : list string)
| AnsMediaType (m : option MediaType).

(** One call: its answer and the registry after it. *)
Definition exec (c : Call) (self : ConversionRegistry)
  : Answer * ConversionRegistry :=
  match c with
  | CallRegister route => (AnsNone, register self route)
  | CallIsValid s t => (AnsBool (is_valid self s t), self)
  | CallGetRoute s t => (AnsRoute (get_route self s t), self)
  | CallGetValidTargets s => (AnsTargets (get_valid_targets self s), self)
  | CallGetMediaType e => (AnsMediaType (get_media_type e), self)
  end.

(** A sequence of calls: the answers in order and the final registry. *)
Fixpoint exec_all (cs : list Call) (self : ConversionRegistry)
  : list Answer * ConversionRegistry :=
  match cs with
  | [] => ([], self)
  | c :: cs' =>
      let '(a, self') := exec c self in
      let '(answers, self'') := exec_all cs' self' in
      (a :: answers, self'')
  end.

Definition is_lookup (c : Call) : bool :=
  match c with CallRegister _ => false | _ => true end.

End RegistryObject.

(** ** [pathlib.Path], as far as the driver uses it *)

Module Pathlib.

Record Path : Type := mkPath {
  parent : string;     (* the directory, as a string *)
  name : string        (* the final component *)
}.

#[global] Instance Path_eq_dec : EqDecision Path.
Proof. solve_decision. Defined.

(** [name.rfind(".")]; [None] where Python returns -1. *)
Fixpoint rfind_dot (s : string) : option nat :=
  match s with
  | EmptyString => None
  | String c s' =>
      match rfind_dot s' with
      | Some i => Some (S i)
      | None => if Ascii.eqb c "." then Some 0 else None
      end
  end.

(** [Path.suffix]: the name from its last dot on, when that dot is
    neither the first nor the last character; else the empty string. *)
Definition suffix (p : Path) : string :=
  match rfind_dot (name p) with
  | Some i =>
      if ((0 <? i) && (i <? String.length (name p) - 1))%nat
      then substring i (String.length (name p) - i)%nat (name p)
      else ""
  | None => ""
  end.

(** [str(path)] *)
Definition to_str (p : Path) : string := parent p +:+ "/" +:+ name p.

(** The files on disk, and those the operating system refuses to
    remove (no permission). *)
Record FileSystem : Type := mkFS {
  entries : list Path;
  undeletable : list Path
}.

(** [Path.unlink()]: the error raised, if any, and the file system
    after the call. It raises [FileNotFoundError] for a missing file
    and [PermissionError] for one that may not be removed, both
    subclasses of [OSError]. *)
Definition unlink (p : Path) (fs : FileSystem)
  : option Exception * FileSystem :=
  if bool_decide (p ∈ entries fs) then
    if bool_decide (p ∈ undeletable fs) then
      (Some (OSError "PermissionError"
               (code_points ("[Errno 13] Permission denied: '"
                             +:+ to_str p +:+ "'"))), fs)
    else
      (None, mkFS (filter (λ q, q ≠ p) (entries fs)) (undeletable fs))
  else
    (Some (OSError "FileNotFoundError"
             (code_points ("[Errno 2] No such file or directory: '"
                           +:+ to_str p +:+ "'"))), fs).

Definition on_disk (p : Path) (fs : FileSystem) : bool :=
  bool_decide (p ∈ entries fs).

End Pathlib.

Import Pathlib.

(** ** [src/logger.py] *)

Module Logger.

(** [class ConversionStatus(Enum)] *)
Inductive ConversionStatus : Type := SUCCESS | SKIPPED | DELETED | ERROR.

(** The levels of [logging] the logger uses. *)
Inductive Level : Type := INFO | WARNING | LEVEL_ERROR.

(** One record of the log file, with the values its f-string
    interpolates. *)
Inductive LogRecord : Type :=
| Banner                                   (* "=" * 80 *)
| SessionStarted                           (* "File Conversion Session Started" *)
| Conversion (source_name destination_name : string) (original_kept : bool)
    (* "SUCCESS | {source.name} -> {destination.name} | original kept|deleted" *)
| Skip (source_name reason : string)       (* "SKIPPED | {source.name} | {reason}" *)
| Delete (source_name : string)            (* "DELETED | {source.name}" *)
| Error (source_name type_name : string) (message : text)
    (* "ERROR | {source.name} | {type(error).__name__}: {error}" *)
| SummaryTitle                             (* "Session Summary:" *)
| SummaryItem (key : string) (value : nat) (* "  {key.capitalize()}: {value}" *).

(** The [ConversionStatus] a record starts with, if any. *)
Definition status_of (r : LogRecord) : option ConversionStatus :=
  match r with
  | Conversion _ _ _ => Some SUCCESS
  | Skip _ _ => Some SKIPPED
  | Delete _ => Some DELETED
  | Error _ _ _ => Some ERROR
  | _ => None
  end.

(** [logger.info], [logger.warning] or [logger.error]. *)
Definition level_of (r : LogRecord) : Level :=
  match r with
  | Delete _ => WARNING
  | Error _ _ _ => LEVEL_ERROR
  | _ => INFO
  end.

(** [ConversionLogger]: the path of the log file and the records
    appended to it so far, oldest first. *)
Record ConversionLogger : Type := mkLogger {
  log_file : string;
  records : list LogRecord
}.

Definition emit (r : LogRecord) (self : ConversionLogger) : ConversionLogger :=
  mkLogger (log_file self) (records self ++ [r]).

(** [_log_session_start] *)
Definition _log_session_start (self : ConversionLogger) : ConversionLogger :=
  emit Banner (emit SessionStarted (emit Banner self)).

(** [__init__]; the time-stamped file name is given. *)
Definition init (log_file : string) : ConversionLogger :=
  _log_session_start (mkLogger log_file []).

Definition log_conversion (source destination : Path) (original_kept : bool)
           (self : ConversionLogger) : ConversionLogger :=
  emit (Conversion (name source) (name destination) original_kept) self.

Definition log_skip (source : Path) (reason : string)
           (self : ConversionLogger) : ConversionLogger :=
  emit (Skip (name source) reason) self.

Definition log_delete (source : Path) (self : ConversionLogger)
  : ConversionLogger :=
  emit (Delete (name source)) self.

Definition log_error (source : Path) (error : Exception)
           (self : ConversionLogger) : ConversionLogger :=
  emit (Error (name source) (type_name_of error) (message_of error)) self.

(** [log_summary]: [stats.items()] in insertion order between the
    title and the closing banner. *)
Definition log_summary (stats : list (string * nat))
           (self : ConversionLogger) : ConversionLogger :=
  let self := emit Banner self in
  let self := emit SummaryTitle self in
  let self := foldl (λ lg '(key, value), emit (SummaryItem key value) lg)
                    self stats in
  emit Banner self.

Definition get_log_path (self : ConversionLogger) : string := log_file self.

(** Counting the records of one status. *)
Definition has_status (s : ConversionStatus) (r : LogRecord) : bool :=
  match status_of r, s with
  | Some SUCCESS, SUCCESS | Some SKIPPED, SKIPPED
  | Some DELETED, DELETED | Some ERROR, ERROR => true
  | _, _ => false
  end.

Definition count_status (s : ConversionStatus) (l : list LogRecord) : nat :=
  length (filter (λ r, has_status s r = true) l).

End Logger.

Import Logger.

(** ** [src/tui/screens/progress_screen.py] *)

Module Driver.

(** The button the user presses at a keep/delete prompt. *)
Inductive Decision : Type := KeepOriginal | DeleteOriginal.

(** The environment of one run. [convert i cls file target] is what
    [cls().convert(file, target)] does at iteration [i] of the loop: it
    returns the output path or raises. [pressed i] is the button pressed
    at the prompt of iteration [i]; [None] when the user never answers,
    so that the worker waits for ever. *)
Record World : Type := mkWorld {
  convert : nat → ConverterClass → Path → string → Result Path;
  pressed : nat → option Decision
}.

(** The lines written to the log panel, with the values interpolated. *)
Inductive UiLine : Type :=
| LossyWarning (file_name : string)
    (* "⚠  {file.name} — lossy conversion, quality may be reduced" *)
| Converted (file_name output_name : string)
    (* "✓  {file.name}  →  {output.name}" *)
| Failed (file_name : string) (exc : text)
    (* "✗  {file.name}  —  {exc}" *)
| Blank
| Done (converted errors : nat)
    (* "Done — ✓ {success} converted  ✗ {errors} errors" *)
| LogSavedTo (path : string).

(** The calls made on the widgets. *)
Inductive UiCall : Type :=
| WriteLine (line : UiLine)          (* log.write_line *)
| ShowKeepPrompt (file : Path)       (* prompt label updated, panel shown *)
| DismissPrompt                      (* panel hidden *)
| Advance (n : nat).                 (* progress.advance *)

(** The dict [_stats]; its three keys are fixed by [__init__]. *)
Record Stats : Type := mkStats {
  success : nat;
  skipped : nat;
  errors : nat
}.

(** [stats.items()], in the insertion order of the literal. *)
Definition items (s : Stats) : list (string * nat) :=
  [ ("success", success s); ("skipped", skipped s); ("errors", errors s) ].

Record ProgressScreen : Type := mkScreen {
  _files : list Path;
  _target_format : string;
  _current_file : option Path;
  _converted_output : option Path;
  _stats : Stats;
  _logger : ConversionLogger;
  prompt_visible : bool;       (* "visible" in the classes of #prompt-panel *)
  ui : list UiCall             (* the widget calls so far, oldest first *)
}.

(** [__init__]; the path of the log file is given. *)
Definition init (files : list Path) (target_format log_file : string)
  : ProgressScreen :=
  mkScreen files target_format None None (mkStats 0 0 0)
           (Logger.init log_file) false [].

Section Updates.
Variable self : ProgressScreen.

Definition set_current_file (f : option Path) : ProgressScreen :=
  mkScreen (_files self) (_target_format self) f (_converted_output self)
           (_stats self) (_logger self) (prompt_visible self) (ui self).

Definition set_converted_output (o : option Path) : ProgressScreen :=
  mkScreen (_files self) (_target_format self) (_current_file self) o
           (_stats self) (_logger self) (prompt_visible self) (ui self).

Definition set_stats (s : Stats) : ProgressScreen :=
  mkScreen (_files self) (_target_format self) (_current_file self)
           (_converted_output self) s (_logger self) (prompt_visible self)
           (ui self).

Definition set_logger (l : ConversionLogger) : ProgressScreen :=
  mkScreen (_files self) (_target_format self) (_current_file self)
           (_converted_output self) (_stats self) l (prompt_visible self)
           (ui self).

(** A call on a widget; showing and hiding the prompt also set the
    class of the panel. *)
Definition call (c : UiCall) : ProgressScreen :=
  mkScreen (_files self) (_target_format self) (_current_file self)
           (_converted_output self) (_stats self) (_logger self)
           match c with
           | ShowKeepPrompt _ => true
           | DismissPrompt => false
           | _ => prompt_visible self
           end
           (ui self ++ [c]).
End Updates.

Definition write_line (l : UiLine) (self : ProgressScreen) : ProgressScreen :=
  call self (WriteLine l).

(** [self._stats["success"] += 1] and [self._stats["errors"] += 1] *)
Definition incr_success (self : ProgressScreen) : ProgressScreen :=
  let s := _stats self in
  set_stats self (mkStats (S (success s)) (skipped s) (errors s)).

Definition incr_errors (self : ProgressScreen) : ProgressScreen :=
  let s := _stats self in
  set_stats self (mkStats (success s) (skipped s) (S (errors s))).

Definition _show_keep_prompt (file : Path) (self : ProgressScreen)
  : ProgressScreen :=
  call self (ShowKeepPrompt file).

Definition _dismiss_prompt (self : ProgressScreen) : ProgressScreen :=
  call self DismissPrompt.

(** [on_keep]. A [Path] is always truthy, so the guard tests the two
    attributes against [None]. *)
Definition on_keep (self : ProgressScreen) : ProgressScreen :=
  let self :=
    match _current_file self, _converted_output self with
    | Some file, Some output =>
        set_logger self (log_conversion file output true (_logger self))
    | _, _ => self
    end in
  _dismiss_prompt self.

(** [on_delete] *)
Definition on_delete (self : ProgressScreen) (fs : FileSystem)
  : ProgressScreen * FileSystem :=
  let '(self, fs) :=
    match _current_file self with
    | Some file =>
        match unlink file fs with
        | (None, fs') =>
            (set_logger self (log_delete file (_logger self)), fs')
        | (Some exc, fs') =>
            (set_logger self (log_error file exc (_logger self)), fs')
        end
    | None => (self, fs)
    end in
  let self :=
    match _current_file self, _converted_output self with
    | Some file, Some output =>
        set_logger self (log_conversion file output false (_logger self))
    | _, _ => self
    end in
  (_dismiss_prompt self, fs).

(** The handler of the button that was pressed, run by the interface
    while the worker waits. *)
Definition press (d : Decision) (self : ProgressScreen) (fs : FileSystem)
  : ProgressScreen * FileSystem :=
  match d with
  | KeepOriginal => (on_keep self, fs)
  | DeleteOriginal => on_delete self fs
  end.

(** [_wait_for_prompt]: the loop ends once the panel is hidden, which
    the handler of either button does; [None] when no button is ever
    pressed. *)
Definition _wait_for_prompt (w : World) (i : nat)
           (self : ProgressScreen) (fs : FileSystem)
  : option (ProgressScreen * FileSystem) :=
  if prompt_visible self then
    match pressed w i with
    | Some d => Some (press d self fs)
    | None => None
    end
  else Some (self, fs).

(** The [except Exception as exc] block. *)
Definition handle_exception (file : Path) (exc : Exception)
           (self : ProgressScreen) : ProgressScreen :=
  let self := incr_errors self in
  let self := set_logger self (log_error file exc (_logger self)) in
  write_line (Failed (name file) (message_of exc)) self.

(** A run of the worker either goes on or waits for ever at a prompt. *)
Inductive Outcome : Type :=
| Finished (self : ProgressScreen) (fs : FileSystem)
| Blocked (self : ProgressScreen) (fs : FileSystem).

(** [file.suffix.lstrip(".").lower()] *)
Definition ext_of (file : Path) : string := lower (lstrip_dot (suffix file)).

(** The body of [for file in self._files], at iteration [i]. *)
Definition process_file (w : World) (i : nat) (file : Path)
           (self : ProgressScreen) (fs : FileSystem) : Outcome :=
  let self := set_current_file self (Some file) in
  let ext := ext_of file in
  match get_route registry ext (_target_format self) with
  | Raise exc =>
      Finished (call (handle_exception file exc self) (Advance 1)) fs
  | Return route =>
      let self :=
        if lossy route then write_line (LossyWarning (name file)) self
        else self in
      match convert w i (converter_class route) file (_target_format self) with
      | Raise exc =>
          Finished (call (handle_exception file exc self) (Advance 1)) fs
      | Return output =>
          let self := set_converted_output self (Some output) in
          let self := incr_success self in
          let self := write_line (Converted (name file) (name output)) self in
          let self := _show_keep_prompt file self in
          match _wait_for_prompt w i self fs with
          | Some (self, fs) => Finished (call self (Advance 1)) fs
          | None => Blocked self fs
          end
      end
  end.

(** The screen when the prompt for [file] is shown. *)
Definition screen_at_prompt (file output : Path) (r : ConversionRoute)
           (self : ProgressScreen) : ProgressScreen :=
  let self := set_current_file self (Some file) in
  let self := if lossy r then write_line (LossyWarning (name file)) self
              else self in
  let self := set_converted_output self (Some output) in
  let self := incr_success self in
  let self := write_line (Converted (name file) (name output)) self in
  _show_keep_prompt file self.

(** The loop over the files that remain, from iteration [i] on. *)
Fixpoint loop (w : World) (i : nat) (files : list Path)
         (self : ProgressScreen) (fs : FileSystem) : Outcome :=
  match files with
  | [] => Finished self fs
  | file :: rest =>
      match process_file w i file self fs with
      | Finished self fs => loop w (S i) rest self fs
      | Blocked self fs => Blocked self fs
      end
  end.

(** [_show_done] *)
Definition _show_done (self : ProgressScreen) : ProgressScreen :=
  let self := write_line Blank self in
  let self := write_line (Done (success (_stats self)) (errors (_stats self)))
                         self in
  write_line (LogSavedTo (get_log_path (_logger self))) self.

(** [_run_conversions] *)
Definition _run_conversions (w : World) (self : ProgressScreen)
           (fs : FileSystem) : Outcome :=
  match loop w 0 (_files self) self fs with
  | Finished self fs =>
      let self := set_logger self (log_summary (items (_stats self))
                                               (_logger self)) in
      Finished (_show_done self) fs
  | Blocked self fs => Blocked self fs
  end.

(** Observations on a run. *)
Definition is_converted_line (c : UiCall) : bool :=
  match c with WriteLine (Converted _ _) => true | _ => false end.

Definition is_failed_line (c : UiCall) : bool :=
  match c with WriteLine (Failed _ _) => true | _ => false end.

(** The files a keep/delete prompt was shown for, in order. *)
Definition prompted (l : list UiCall) : list Path :=
  omap (λ c, match c with ShowKeepPrompt f => Some f | _ => None end) l.

Definition count_calls (p : UiCall → bool) (l : list UiCall) : nat :=
  length (filter (λ c, p c = true) l).

(** The items of the summary in the session log. *)
Definition summary_of (l : list LogRecord) : list (string * nat) :=
  omap (λ r, match r with SummaryItem k v => Some (k, v) | _ => None end) l.

(** Whether answering a prompt with [d] runs into a removal that the
    file system refuses, and the file system after the answer. *)
Definition removal_fails (d : Decision) (file : Path) (fs : FileSystem)
  : bool :=
  match d with
  | DeleteOriginal => bool_decide (is_Some (unlink file fs).1)
  | KeepOriginal => false
  end.

Definition disk_after (d : Decision) (file : Path) (fs : FileSystem)
  : FileSystem :=
  match d with
  | DeleteOriginal => (unlink file fs).2
  | KeepOriginal => fs
  end.

(** The record the removal of [file] adds to the session log. *)
Definition removal_records (d : Decision) (file : Path) (fs : FileSystem)
  : list LogRecord :=
  match d with
  | DeleteOriginal =>
      match (unlink file fs).1 with
      | None => [Delete (name file)]
      | Some exc => [Error (name file) (type_name_of exc) (message_of exc)]
      end
  | KeepOriginal => []
  end.

(** The flag the handler of a button passes to [log_conversion]. *)
Definition kept_flag (d : Decision) : bool :=
  match d with KeepOriginal => true | DeleteOriginal => false end.

(** The lines a successful conversion writes before the prompt. *)
Definition conversion_lines (file output : Path) (r : ConversionRoute)
  : list UiCall :=
  (if lossy r then [WriteLine (LossyWarning (name file))] else [])
  ++ [WriteLine (Converted (name file) (name output))].

End Driver.

Import Driver.

(** ** A concrete batch

  Three files converted to "jpg": a.heic and c.png have a route, b.xyz
  has none. The codec succeeds on both routed files. The user asks for
  the removal of a.heic, which the file system refuses, and keeps
  c.png. *)

Module Scenario.

Definition a_heic : Path := mkPath "/photos" "a.heic".
Definition b_xyz : Path := mkPath "/photos" "b.xyz".
Definition c_png : Path := mkPath "/photos" "c.png".
Definition a_jpg : Path := mkPath "/photos" "a.jpg".
Definition c_jpg : Path := mkPath "/photos" "c.jpg".

Definition batch : list Path := [a_heic; b_xyz; c_png].

Definition codec_failure : Exception :=
  OtherError "UnidentifiedImageError" (code_points "cannot identify image file").

Definition world : World :=
  mkWorld
    (λ i _ _ _, match i with
                | 0 => Return a_jpg
                | 2 => Return c_jpg
                | _ => Raise codec_failure
                end)
    (λ i, match i with
          | 0 => Some DeleteOriginal
          | _ => Some KeepOriginal
          end).

(** a.heic is on a read-only volume. *)
Definition disk : FileSystem := mkFS [a_heic; b_xyz; c_png] [a_heic].

Definition screen : ProgressScreen := Driver.init batch "jpg" "converter.log".

(** The screen at the prompt for a.heic: the conversion to a.jpg is done
    and the prompt is shown. *)
Definition at_prompt : ProgressScreen :=
  _show_keep_prompt a_heic
    (write_line (Converted "a.heic" "a.jpg")
       (incr_success
          (set_converted_output
             (write_line (LossyWarning "a.heic")
                (set_current_file (Driver.init [a_heic] "jpg" "converter.log")
                                  (Some a_heic)))
             (Some a_jpg)))).

End Scenario.

(** ** Definitions that follow the specification

  These are written from the words of the specification, to be compared
  with the definitions above, which are written from the code. *)

Module Spec.

(** The default route table of the specification (section 6), one list
    per media domain; each triple is (source, target, lossy). *)
Definition spec_image_routes : list (string * string * bool) :=
  [ ("heic", "jpg", true); ("heic", "png", false); ("jpg", "png", false);
    ("jpg", "webp", true); ("png", "jpg", true); ("png", "webp", false);
    ("png", "gif", false); ("webp", "jpg", true); ("webp", "png", false);
    ("gif", "png", false); ("bmp", "jpg", true); ("bmp", "png", false);
    ("tiff", "jpg", true); ("tiff", "png", false) ].

Definition spec_video_routes : list (string * string * bool) :=
  [ ("mp4", "avi", false); ("mp4", "mkv", false); ("mp4", "mov", false);
    ("avi", "mp4", false); ("avi", "mkv", false); ("mkv", "mp4", false);
    ("mkv", "avi", false); ("mov", "mp4", false); ("mov", "avi", false) ].

Definition spec_audio_routes : list (string * string * bool) :=
  [ ("mp3", "wav", false); ("mp3", "flac", false); ("wav", "mp3", true);
    ("wav", "flac", false); ("flac", "mp3", true); ("flac", "wav", false);
    ("aac", "mp3", true); ("aac", "wav", false); ("m4a", "mp3", true);
    ("m4a", "wav", false) ].

Definition spec_document_routes : list (string * string * bool) :=
  [ ("pdf", "txt", false); ("docx", "txt", false) ].

Definition spec_route_table : list (string * string * bool) :=
  (spec_image_routes ++ spec_video_routes
   ++ spec_audio_routes ++ spec_document_routes)%list.

(** Whether a registered key and its route are an entry of the table. *)
Definition in_spec_table (kr : string * string * ConversionRoute) : bool :=
  existsb (λ '(s, t, l),
             String.eqb s kr.1.1 && String.eqb t kr.1.2
             && Bool.eqb l (lossy kr.2))
          spec_route_table.

(** Two strings are case variants of each other when they have the same
    length and agree, position by position, up to the case of the
    character. *)
Inductive case_variant : string → string → Prop :=
| case_variant_nil : case_variant "" ""
| case_variant_cons c c' s s' :
    lower_char c = lower_char c' →
    case_variant s s' →
    case_variant (String c s) (String c' s').

(** The invariant of the registry (section 3): the two formats of a
    route are in the same domain when both are in the catalog. *)
Definition same_domain_if_known (r : ConversionRoute) : bool :=
  match get_media_type (source_format r), get_media_type (target_format r) with
  | Some d1, Some d2 => bool_decide (d1 = d2)
  | _, _ => true
  end.

End Spec.

Import Spec.

(** ** The steps of the worker in closed form

    The screen after one iteration of the loop, written with its fields,
    and the quantities a run is accounted by. *)

Module Effects.

(** The warning written before a lossy conversion. *)
Definition lossy_lines (file : Path) (r : ConversionRoute) : list UiCall :=
  if lossy r then [WriteLine (LossyWarning (name file))] else [].

(** The screen after the [except] block and the advance of the bar;
    [pre] are the lines written in the [try] block before the exception. *)
Definition after_failure (file : Path) (exc : Exception) (pre : list UiCall)
           (self : ProgressScreen) : ProgressScreen :=
  mkScreen (_files self) (_target_format self) (Some file)
           (_converted_output self)
           (mkStats (success (_stats self)) (skipped (_stats self))
                    (S (errors (_stats self))))
           (mkLogger (log_file (_logger self))
                     (records (_logger self)
                      ++ [Error (name file) (type_name_of exc)
                                (message_of exc)]))
           (prompt_visible self)
           (ui self ++ pre
               ++ [WriteLine (Failed (name file) (message_of exc)); Advance 1]).

(** The screen after a conversion, the answer [d] to its prompt and the
    advance of the bar. *)
Definition after_conversion (file output : Path) (r : ConversionRoute)
           (d : Decision) (fs : FileSystem) (self : ProgressScreen)
  : ProgressScreen :=
  mkScreen (_files self) (_target_format self) (Some file) (Some output)
           (mkStats (S (success (_stats self))) (skipped (_stats self))
                    (errors (_stats self)))
           (mkLogger (log_file (_logger self))
                     (records (_logger self)
                      ++ removal_records d file fs
                      ++ [Conversion (name file) (name output) (kept_flag d)]))
           false
           (ui self ++ conversion_lines file output r
               ++ [ShowKeepPrompt file; DismissPrompt; Advance 1]).

Definition screen_of (o : Outcome) : ProgressScreen :=
  match o with Finished self _ | Blocked self _ => self end.

Definition disk_of (o : Outcome) : FileSystem :=
  match o with Finished _ fs | Blocked _ fs => fs end.

Definition is_finished (o : Outcome) : bool :=
  match o with Finished _ _ => true | Blocked _ _ => false end.

Definition is_advance (c : UiCall) : bool :=
  match c with Advance _ => true | _ => false end.

Definition is_dismiss (c : UiCall) : bool :=
  match c with DismissPrompt => true | _ => false end.

(** A screen on which [n] files have been processed and every prompt has
    been answered: the counters, the panel and the session log agree. *)
Definition accounted (n : nat) (self : ProgressScreen) : Prop :=
  success (_stats self) + errors (_stats self) = n
  ∧ skipped (_stats self) = 0
  ∧ count_calls is_advance (ui self) = n
  ∧ count_calls is_converted_line (ui self) = success (_stats self)
  ∧ count_calls is_failed_line (ui self) = errors (_stats self)
  ∧ length (prompted (ui self)) = success (_stats self)
  ∧ count_calls is_dismiss (ui self) = success (_stats self)
  ∧ count_status SUCCESS (records (_logger self)) = success (_stats self)
  ∧ summary_of (records (_logger self)) = []
  ∧ prompt_visible self = false.

End Effects.

Import Effects.

(** ** Registries as the program builds them *)

Module Built.

(** The registries that arise from the empty one by calls of [register],
    the only method that assigns to [_routes]. *)
Inductive by_register : ConversionRegistry → Prop :=
| by_register_init : by_register Registry.init
| by_register_step self route :
    by_register self → by_register (register self route).

(** The key [register] files a route under. *)
Definition key_of (route : ConversionRoute) : string * string :=
  (lower (source_format route), lower (target_format route)).

(** The converter class each loop of [build_default_registry] registers
    for its media domain. *)
Definition converter_of (d : MediaType) : ConverterClass :=
  match d with
  | IMAGE => ImageConverter
  | VIDEO => VideoConverter
  | AUDIO => AudioConverter
  | DOCUMENT => DocumentConverter
  end.

(** A route whose formats are both in the catalog, in one domain, whose
    converter is the one of that domain, and that is not the identity. *)
Definition well_dispatched (r : ConversionRoute) : bool :=
  match get_media_type (source_format r), get_media_type (target_format r) with
  | Some d1, Some d2 =>
      bool_decide (d1 = d2)
      && bool_decide (converter_class r = converter_of d1)
      && negb (String.eqb (source_format r) (target_format r))
  | _, _ => false
  end.

End Built.

Import Built.

(** ** [src/converters]

    [Path.with_suffix] is written as CPython 3.8 to 3.12 has it for POSIX
    paths. What the codec libraries do (Pillow, ffmpeg, pypdf,
    python-docx) and the writing of files is given by a [Codecs]. *)

Module Converters.

Definition is_empty (s : string) : bool :=
  match s with EmptyString => true | _ => false end.

Definition starts_with_dot (s : string) : bool :=
  match s with String "."%char _ => true | _ => false end.

(** ["/" in s] *)
Fixpoint contains_sep (s : string) : bool :=
  match s with
  | EmptyString => false
  | String c s' => Ascii.eqb c "/" || contains_sep s'
  end.

(** [repr(s)] for a string without quotes, backslashes or control
    characters. *)
Definition repr_str (s : string) : string := "'" +:+ s +:+ "'".

(** [", ".join(l)] *)
Fixpoint join (sep : string) (l : list string) : string :=
  match l with
  | [] => ""
  | [x] => x
  | x :: l' => x +:+ sep +:+ join sep l'
  end.

(** [str(l)] for a list of such strings. *)
Definition str_list (l : list string) : string :=
  "[" +:+ join ", " (repr_str <$> l) +:+ "]".

(** [Path.with_suffix] *)
Definition with_suffix (p : Path) (sfx : string) : Result Path :=
  if contains_sep sfx then
    Raise (ValueError (code_points ("Invalid suffix " +:+ repr_str sfx)))
  else if (negb (is_empty sfx) && negb (starts_with_dot sfx))
          || String.eqb sfx "." then
    Raise (ValueError (code_points ("Invalid suffix " +:+ repr_str sfx)))
  else if is_empty (name p) then
    Raise (ValueError (code_points ("PosixPath(" +:+ repr_str (parent p)
                                    +:+ ") has an empty name")))
  else
    let old_suffix := suffix p in
    if is_empty old_suffix then
      Return (mkPath (parent p) (name p +:+ sfx))
    else
      Return (mkPath (parent p)
                     (substring 0 (String.length (name p)
                                   - String.length old_suffix) (name p)
                      +:+ sfx)).

(** [BaseConverter.get_output_path] *)
Definition get_output_path (source : Path) (target_format : string)
  : Result Path :=
  with_suffix source ("." +:+ lower target_format).

(** The libraries behind the converters. *)
Record Codecs : Type := mkCodecs {
  image : Type;
  image_open : Path → Result image;                   (* Image.open *)
  image_mode : image → string;                         (* img.mode *)
  image_convert : image → string → Result image;       (* img.convert *)
  image_save : image → Path → string → option Exception;  (* img.save *)
  ffmpeg_run : Path → Path → option Exception;
      (* ffmpeg.input(..).output(..).overwrite_output().run(quiet=True) *)
  pdf_pages : Path → Result (list (option string));
      (* [page.extract_text() for page in PdfReader(..).pages] *)
  docx_paragraphs : Path → Result (list string);
      (* [para.text for para in Document(..).paragraphs] *)
  write_text : Path → string → option Exception        (* Path.write_text *)
}.

(** [_PILLOW_FORMATS] *)
Definition _PILLOW_FORMATS : gmap string string :=
  list_to_map
    [ ("jpg", "JPEG"); ("jpeg", "JPEG"); ("png", "PNG"); ("webp", "WEBP");
      ("gif", "GIF"); ("bmp", "BMP"); ("tiff", "TIFF") ].

(** [_SUPPORTED_FORMATS] of the audio converter *)
Definition _SUPPORTED_FORMATS : gset string :=
  list_to_set [ "mp3"; "wav"; "flac"; "aac"; "ogg"; "m4a" ].

Definition unsupported_image_message (target_format : string) : text :=
  code_points ("Unsupported target image format: " +:+ repr_str target_format
               +:+ ". Supported: "
               +:+ str_list (sorted (fst <$> map_to_list _PILLOW_FORMATS))).

Definition unsupported_audio_message (target_format : string) : text :=
  code_points ("Unsupported target audio format: " +:+ repr_str target_format
               +:+ ". Supported: "
               +:+ str_list (sorted (elements _SUPPORTED_FORMATS))).

Definition unsupported_document_message (source_fmt target_fmt : string)
  : text :=
  code_points ("Unsupported document conversion: " +:+ source_fmt +:+ " ")
  ++ arrow ++ code_points (" " +:+ target_fmt).

(** The modes the image converter turns into RGB before a JPEG is saved. *)
Definition flattened_modes : list string := ["RGBA"; "P"; "LA"].

Section WithCodecs.
Variable env : Codecs.

(** The body of [with Image.open(source) as img] up to [img.save]. *)
Definition prepare (pillow_format : string) (img : image env)
  : Result (image env) :=
  if String.eqb pillow_format "JPEG"
     && bool_decide (image_mode env img ∈ flattened_modes)
  then image_convert env img "RGB"
  else Return img.

(** [ImageConverter.convert] *)
Definition ImageConverter_convert (source : Path) (target_format : string)
  : Result Path :=
  let fmt := lower target_format in
  match _PILLOW_FORMATS !! fmt with
  | None => Raise (ValueError (unsupported_image_message target_format))
  | Some pillow_format =>
      match get_output_path source fmt with
      | Raise e => Raise e
      | Return output_path =>
          match image_open env source with
          | Raise e => Raise e
          | Return img =>
              match prepare pillow_format img with
              | Raise e => Raise e
              | Return img =>
                  match image_save env img output_path pillow_format with
                  | Some e => Raise e
                  | None => Return output_path
                  end
              end
          end
      end
  end.

(** [VideoConverter.convert] *)
Definition VideoConverter_convert (source : Path) (target_format : string)
  : Result Path :=
  match get_output_path source (lower target_format) with
  | Raise e => Raise e
  | Return output_path =>
      match ffmpeg_run env source output_path with
      | Some e => Raise e
      | None => Return output_path
      end
  end.

(** [AudioConverter.convert] *)
Definition AudioConverter_convert (source : Path) (target_format : string)
  : Result Path :=
  let fmt := lower target_format in
  if bool_decide (fmt ∈ _SUPPORTED_FORMATS) then
    match get_output_path source fmt with
    | Raise e => Raise e
    | Return output_path =>
        match ffmpeg_run env source output_path with
        | Some e => Raise e
        | None => Return output_path
        end
    end
  else Raise (ValueError (unsupported_audio_message target_format)).

(** ["\n".join(...)] *)
Definition join_lines (l : list string) : string :=
  join (String "010"%char EmptyString) l.

(** [DocumentConverter._pdf_to_txt]; [page.extract_text() or ""] turns a
    missing text into the empty string. *)
Definition _pdf_to_txt (source : Path) : Result Path :=
  match get_output_path source "txt" with
  | Raise e => Raise e
  | Return output_path =>
      match pdf_pages env source with
      | Raise e => Raise e
      | Return pages =>
          let text := join_lines (default "" <$> pages) in
          match write_text env output_path text with
          | Some e => Raise e
          | None => Return output_path
          end
      end
  end.

(** [DocumentConverter._docx_to_txt] *)
Definition _docx_to_txt (source : Path) : Result Path :=
  match get_output_path source "txt" with
  | Raise e => Raise e
  | Return output_path =>
      match docx_paragraphs env source with
      | Raise e => Raise e
      | Return paragraphs =>
          let text := join_lines paragraphs in
          match write_text env output_path text with
          | Some e => Raise e
          | None => Return output_path
          end
      end
  end.

(** The two methods the dict [converters] of [DocumentConverter.convert]
    maps a route to. *)
Inductive DocumentHandler : Type := PdfToTxt | DocxToTxt.

Definition converters : gmap (string * string) DocumentHandler :=
  list_to_map [ (("pdf", "txt"), PdfToTxt); (("docx", "txt"), DocxToTxt) ].

(** [DocumentConverter.convert] *)
Definition DocumentConverter_convert (source : Path) (target_format : string)
  : Result Path :=
  let source_fmt := lstrip_dot (lower (suffix source)) in
  let target_fmt := lower target_format in
  let route := (source_fmt, target_fmt) in
  match converters !! route with
  | None =>
      Raise (ValueError (unsupported_document_message source_fmt target_fmt))
  | Some PdfToTxt => _pdf_to_txt source
  | Some DocxToTxt => _docx_to_txt source
  end.

(** [route.converter_class().convert(file, target_format)] *)
Definition convert_with (cls : ConverterClass) (source : Path)
           (target_format : string) : Result Path :=
  match cls with
  | ImageConverter => ImageConverter_convert source target_format
  | VideoConverter => VideoConverter_convert source target_format
  | AudioConverter => AudioConverter_convert source target_format
  | DocumentConverter => DocumentConverter_convert source target_format
  end.

End WithCodecs.

(** The world of the driver when the converters are those of the
    repository. *)
Definition world_of (env : Codecs) (buttons : nat → option Decision) : World :=
  mkWorld (λ _ cls file target, convert_with env cls file target) buttons.

(** Libraries that never fail. *)
Definition all_succeed (env : Codecs) : Prop :=
  (∀ p, ∃ img, image_open env p = Return img)
  ∧ (∀ img m, ∃ img', image_convert env img m = Return img')
  ∧ (∀ img p f, image_save env img p f = None)
  ∧ (∀ p q, ffmpeg_run env p q = None)
  ∧ (∀ p, ∃ l, pdf_pages env p = Return l)
  ∧ (∀ p, ∃ l, docx_paragraphs env p = Return l)
  ∧ (∀ p s, write_text env p s = None).

(** An extension as the tables have them: not empty, without dot or
    separator. *)
Fixpoint no_dot_no_sep (s : string) : bool :=
  match s with
  | EmptyString => true
  | String c s' =>
      negb (Ascii.eqb c ".") && negb (Ascii.eqb c "/") && no_dot_no_sep s'
  end.

Definition plain_extension (s : string) : bool :=
  negb (is_empty s) && no_dot_no_sep s.

(** Whether the converter of a registered route accepts its pair before
    any library is called. *)
Definition accepted_by_converter (kr : string * string * ConversionRoute)
  : bool :=
  plain_extension kr.1.2
  && match converter_class kr.2 with
     | ImageConverter => bool_decide (is_Some (_PILLOW_FORMATS !! kr.1.2))
     | VideoConverter => true
     | AudioConverter => bool_decide (kr.1.2 ∈ _SUPPORTED_FORMATS)
     | DocumentConverter => bool_decide (is_Some (converters !! kr.1))
     end.

End Converters.

Import Converters.

(** ** [src/tui/widgets/format_selector.py] *)

Module FormatSelector.

(** [str.upper] on one code point below U+0100. The small letters a-z
    and U+00E0..U+00FE (U+00F7, the division sign, apart) move down by
    32; the sharp s becomes "SS"; the micro sign and the y with diaeresis
    have their capitals outside the range. *)
Definition upper_char (c : ascii) : text :=
  let n := N_of_ascii c in
  if ((97 <=? n) && (n <=? 122))%N
     || ((224 <=? n) && (n <=? 254) && negb (n =? 247))%N
  then [(n - 32)%N]
  else if (n =? 223)%N then [83%N; 83%N]
  else if (n =? 181)%N then [924%N]
  else if (n =? 255)%N then [376%N]
  else [n].

(** [s.upper()] *)
Fixpoint upper (s : string) : text :=
  match s with
  | EmptyString => []
  | String c s' => upper_char c ++ upper s'
  end.

(** What [watch_source_format] leaves in the [Select]: its options, each
    a label and a value, and its prompt. *)
Record SelectState : Type := mkSelect {
  options : list (text * string);
  prompt : string
}.

(** [watch_source_format] *)
Definition watch_source_format (source_format : option string) : SelectState :=
  match source_format with
  | None => mkSelect [] "Select source files first"
  | Some source_format =>
      let targets := get_valid_targets registry source_format in
      match targets with
      | [] => mkSelect [] ("No conversions available for ." +:+ source_format)
      | _ =>
          mkSelect ((λ fmt, (code_points "." ++ upper fmt, fmt)) <$> targets)
                   "Choose target format"
      end
  end.

(** The values the user can pick. *)
Definition offered (source_format : option string) : list string :=
  snd <$> options (watch_source_format source_format).

End FormatSelector.

(** ** [src/tui/screens/main_screen.py] *)

Module MainScreen.

(** The loop of [_format_size]: the value that is shown and its unit. *)
Fixpoint scale (units : list string) (size_bytes : N) : N * string :=
  match units with
  | [] => (size_bytes, "TB")
  | unit :: rest =>
      if (size_bytes <? 1024)%N then (size_bytes, unit)
      else scale rest (size_bytes / 1024)%N
  end.

(** [_format_size]. An [int] formatted with [.1f] is converted to a
    float first; the value is its decimal digits followed by ".0" as long
    as it is below 2^53, which holds for every size below 2^63 (the range
    of [st_size]); the definition is meant for those sizes only. *)
Definition _format_size (size_bytes : N) : string :=
  let '(value, unit) := scale ["B"; "KB"; "MB"; "GB"] size_bytes in
  pretty value +:+ ".0 " +:+ unit.

(** The attributes of the screen and what its handlers leave in the
    widgets. The messages the widgets post in turn ([Select.Changed]
    after new options) are not followed here; [on_format_changed] below
    is the handler they reach. *)
Record State : Type := mkState {
  _selected_files : list Path;
  _detected_media_type : option MediaType;
  status : string;                            (* #status-label *)
  rows : list (string * string * string);     (* #file-table *)
  source_format : option string;      (* FormatSelector.source_format *)
  convert_disabled : bool                     (* #convert-btn.disabled *)
}.

(** The screen after [compose] and [on_mount]. *)
Definition mounted : State := mkState [] None "" [] None true.

Definition _set_status (message : string) (self : State) : State :=
  mkState (_selected_files self) (_detected_media_type self) message
          (rows self) (source_format self) (convert_disabled self).

Definition _clear_selection (self : State) : State :=
  mkState [] None (status self) [] (source_format self)
          (convert_disabled self).

Definition _refresh_state (self : State) : State :=
  match _selected_files self with
  | [] =>
      mkState (_selected_files self) None (status self) (rows self) None true
  | first :: _ =>
      mkState (_selected_files self) (_detected_media_type self)
              (status self) (rows self) (Some (ext_of first))
              (convert_disabled self)
  end.

(** [_replace_selection]; [st_size] is what [path.stat().st_size] gives.
    When [stat] raises, the exception leaves the handler with the
    selection already extended. *)
Definition _replace_selection (st_size : Path → Result N) (path : Path)
           (self : State) : State * option Exception :=
  let extension := ext_of path in
  match get_media_type extension with
  | None =>
      (_set_status ("Unsupported file type: ." +:+ extension) self, None)
  | Some media_type =>
      let self :=
        match _detected_media_type self with
        | Some detected =>
            if bool_decide (media_type ≠ detected)
            then _clear_selection self else self
        | None => self
        end in
      if bool_decide (path ∈ _selected_files self) then
        (_set_status ("Already added: " +:+ name path) self, None)
      else
        let self :=
          mkState (_selected_files self ++ [path]) (Some media_type)
                  (status self) (rows self) (source_format self)
                  (convert_disabled self) in
        match st_size path with
        | Raise exc => (self, Some exc)
        | Return size_bytes =>
            let self :=
              mkState (_selected_files self) (_detected_media_type self)
                      (status self)
                      (rows self ++ [(name path, "." +:+ extension,
                                      _format_size size_bytes)])
                      (source_format self) (convert_disabled self) in
            let self := _refresh_state self in
            (_set_status "" self, None)
        end
  end.

(** [on_format_changed]; [selected_format] is what the selector holds. *)
Definition on_format_changed (selected_format : option string) (self : State)
  : State :=
  mkState (_selected_files self) (_detected_media_type self) (status self)
          (rows self) (source_format self)
          (match _selected_files self, selected_format with
           | _ :: _, Some _ => false
           | _, _ => true
           end).

(** [on_convert_pressed]: the progress screen that is pushed, if any.
    An empty string and [None] are both falsy. *)
Definition on_convert_pressed (selected_format : option string)
           (log_file : string) (self : State) : option ProgressScreen :=
  match selected_format, _selected_files self with
  | Some target_format, _ :: _ =>
      if is_empty target_format then None
      else Some (Driver.init (_selected_files self) target_format log_file)
  | _, _ => None
  end.

(** The files the user clicks, one after the other, until a handler
    raises. *)
Fixpoint select_all (st_size : Path → Result N) (clicks : list Path)
         (self : State) : State * option Exception :=
  match clicks with
  | [] => (self, None)
  | path :: rest =>
      match _replace_selection st_size path self with
      | (self, None) => select_all st_size rest self
      | (self, Some exc) => (self, Some exc)
      end
  end.

(** The staged batch is of one media domain. *)
Definition single_domain (self : State) : Prop :=
  NoDup (_selected_files self)
  ∧ (_selected_files self = [] ↔ _detected_media_type self = None)
  ∧ ∀ f, f ∈ _selected_files self →
         get_media_type (ext_of f) = _detected_media_type self.

(** The widgets show the batch: one row per file, and the selector is
    fed the extension of the first file. *)
Definition in_step (self : State) : Prop :=
  (λ row : string * string * string, row.1.1) <$> rows self
  = name <$> _selected_files self
  ∧ source_format self = ext_of <$> head (_selected_files self).

End MainScreen.

(** ** More concrete inputs *)

Module Examples.

(** Libraries that never fail; an image is its mode. *)
Definition quiet : Codecs :=
  mkCodecs string
           (λ _, Return "RGBA")
           (λ mode, mode)
           (λ _ mode, Return mode)
           (λ _ _ _, None)
           (λ _ _, None)
           (λ _, Return [Some "page one"; None; Some "page three"])
           (λ _, Return ["first"; "second"])
           (λ _ _, None).

(** The user presses "delete" at every prompt. *)
Definition delete_all : World :=
  world_of quiet (λ _, Some DeleteOriginal).

(** The user never answers. *)
Definition silent : World := world_of quiet (λ _, None).

(** Every file is 2048 bytes long. *)
Definition sizes : Path → Result N := λ _, Return 2048%N.

Definition clicks : list Path := [Scenario.a_heic; Scenario.c_png].

End Examples.

(** * Properties *)

(** ** Lowercasing *)

Lemma lower_char_idemp (c : ascii) : lower_char (lower_char c) = lower_char c.
Proof.
  destruct c as [[] [] [] [] [] [] [] []]; vm_compute; reflexivity.
Qed.

Lemma lower_idemp (s : string) : lower (lower s) = lower s.
Proof.
  induction s as [|c s IH]; simpl; [reflexivity|].
  now rewrite lower_char_idemp, IH.
Qed.

Lemma case_variant_lower (s s' : string) :
  case_variant s s' ↔ lower s = lower s'.
Proof.
  split.
  - induction 1 as [|c c' s s' Hc _ IH]; simpl; congruence.
  - revert s'. induction s as [|c s IH]; intros [|c' s'] H; simpl in H;
      try discriminate; constructor.
    + congruence.
    + apply IH. congruence.
Qed.

Lemma case_variant_of_lower (s : string) : case_variant s (lower s).
Proof. apply case_variant_lower. now rewrite lower_idemp. Qed.

(** The model on a few inputs. *)
Example lower_mixed_case : lower "HeIc.JPG" = "heic.jpg".
Proof. reflexivity. Qed.

Example suffix_of_plain_name :
  suffix (mkPath "/photos" "a.heic") = ".heic"
  ∧ suffix (mkPath "/photos" "archive.tar.gz") = ".gz"
  ∧ suffix (mkPath "/home" ".bashrc") = ""
  ∧ suffix (mkPath "/photos" "README") = "".
Proof. repeat split; reflexivity. Qed.

Example ext_of_upper_case_file : ext_of (mkPath "/photos" "IMG_0001.HEIC") = "heic".
Proof. reflexivity. Qed.

(** ** Messages of [get_route] *)

Lemma code_points_app (a b : string) :
  code_points (a +:+ b) = (code_points a ++ code_points b)%list.
Proof.
  unfold code_points. induction a as [|c a IH]; simpl; [reflexivity|].
  now rewrite IH.
Qed.

(** The two messages never coincide: one starts with "C", the other
    with "N". *)
Lemma messages_distinct (s t s' t' : string) (d1 d2 : MediaType) :
  cross_domain_message s t d1 d2 ≠ no_route_message s' t'.
Proof. unfold cross_domain_message, no_route_message. simpl. discriminate. Qed.

(** For given formats, the cross-domain message determines both domains. *)
Lemma cross_domain_message_domains (s t : string) (d1 d2 e1 e2 : MediaType) :
  cross_domain_message s t d1 d2 = cross_domain_message s t e1 e2 →
  d1 = e1 ∧ d2 = e2.
Proof.
  unfold cross_domain_message. intros H.
  do 3 apply app_inv_head in H.
  assert (d1 = e1) as ->.
  { destruct d1, e1; try reflexivity; simpl in H; discriminate. }
  split; [reflexivity|].
  do 6 apply app_inv_head in H.
  destruct d2, e2; try reflexivity; simpl in H; discriminate.
Qed.

(** ** Lookups in the registry *)

Lemma is_valid_true (self : ConversionRegistry) (s t : string) :
  is_valid self s t = true ↔ is_Some (self !! (lower s, lower t)).
Proof. unfold is_valid. apply bool_decide_eq_true. Qed.

Lemma get_route_registered (self : ConversionRegistry) (s t : string)
      (r : ConversionRoute) :
  self !! (lower s, lower t) = Some r → get_route self s t = Return r.
Proof. intros H. unfold get_route. now rewrite H. Qed.

Lemma get_route_return (self : ConversionRegistry) (s t : string)
      (r : ConversionRoute) :
  get_route self s t = Return r ↔ self !! (lower s, lower t) = Some r.
Proof.
  split; [|apply get_route_registered].
  unfold get_route. destruct (self !! (lower s, lower t)) as [r'|].
  - congruence.
  - destruct (EXTENSION_MEDIA_TYPE !! lower s), (EXTENSION_MEDIA_TYPE !! lower t);
      try case_bool_decide; discriminate.
Qed.

Lemma get_route_cross_domain (self : ConversionRegistry) (s t : string)
      (d1 d2 : MediaType) :
  self !! (lower s, lower t) = None →
  get_media_type s = Some d1 → get_media_type t = Some d2 → d1 ≠ d2 →
  get_route self s t = Raise (ValueError (cross_domain_message s t d1 d2)).
Proof.
  unfold get_media_type, get_route. intros -> -> -> Hne.
  now rewrite bool_decide_eq_true_2.
Qed.

Lemma get_route_not_found (self : ConversionRegistry) (s t : string) :
  self !! (lower s, lower t) = None →
  get_media_type s = None ∨ get_media_type t = None
  ∨ get_media_type s = get_media_type t →
  get_route self s t = Raise (ValueError (no_route_message s t)).
Proof.
  unfold get_media_type, get_route. intros -> H.
  destruct (EXTENSION_MEDIA_TYPE !! lower s) as [d1|] eqn:E1;
    destruct (EXTENSION_MEDIA_TYPE !! lower t) as [d2|] eqn:E2;
    try reflexivity.
  case_bool_decide as Hne; [|reflexivity].
  destruct H as [H|[H|H]]; congruence.
Qed.

(** ** The generator and the sort of [get_valid_targets] *)

Lemma elem_of_targets_of (self : ConversionRegistry) (src t : string) :
  t ∈ targets_of self src ↔ is_Some (self !! (src, t)).
Proof.
  unfold targets_of. rewrite list_elem_of_fmap. split.
  - intros [[a b] [-> [Ha Hin]%list_elem_of_filter]]. simpl in *. subst a.
    apply list_elem_of_fmap in Hin as [[k v] [Hk Hin]]. simpl in Hk. subst k.
    apply elem_of_map_to_list in Hin. eauto.
  - intros [v Hv]. exists (src, t). split; [reflexivity|].
    apply list_elem_of_filter. split; [reflexivity|].
    apply list_elem_of_fmap. exists ((src, t), v). split; [reflexivity|].
    now apply elem_of_map_to_list.
Qed.

Lemma NoDup_targets_of (self : ConversionRegistry) (src : string) :
  NoDup (targets_of self src).
Proof.
  unfold targets_of. apply NoDup_fmap_2_strong.
  - intros [a b] [a' b'] [Ha _]%list_elem_of_filter [Ha' _]%list_elem_of_filter.
    simpl in *. congruence.
  - apply NoDup_filter, NoDup_fst_map_to_list.
Qed.

Lemma sorted_Permutation (l : list string) : sorted l ≡ₚ l.
Proof. apply merge_sort_Permutation. Qed.

Lemma sorted_StronglySorted (l : list string) :
  StronglySorted String.le (sorted l).
Proof. apply StronglySorted_merge_sort; apply _. Qed.

(** The result of [sorted] depends on the elements only, not on the order
    in which the dict yields its keys. *)
Lemma sorted_order_independent (l l' : list string) :
  l ≡ₚ l' → sorted l = sorted l'.
Proof.
  intros H. apply (StronglySorted_unique String.le);
    try apply sorted_StronglySorted.
  now rewrite !sorted_Permutation.
Qed.

Lemma elem_of_get_valid_targets (self : ConversionRegistry) (s t : string) :
  t ∈ get_valid_targets self s ↔ is_Some (self !! (lower s, t)).
Proof.
  unfold get_valid_targets. rewrite sorted_Permutation.
  apply elem_of_targets_of.
Qed.

(** Split a conjunction into its parts, and nothing else. *)
Ltac split_ands := repeat match goal with |- _ ∧ _ => split end.

(** ** The default registry, entry by entry *)

Lemma registry_entries_checked (kr : string * string * ConversionRoute) :
  kr ∈ map_to_list registry →
  in_spec_table kr = true ∧ same_domain_if_known kr.2 = true
  ∧ source_format kr.2 = kr.1.1 ∧ target_format kr.2 = kr.1.2.
Proof.
  intros Hin%list_elem_of_In.
  assert (forallb (λ kr : string * string * ConversionRoute,
                     in_spec_table kr && same_domain_if_known kr.2
                     && String.eqb (source_format kr.2) kr.1.1
                     && String.eqb (target_format kr.2) kr.1.2)
                  (map_to_list registry) = true) as Hall
      by (vm_compute; reflexivity).
  rewrite forallb_forall in Hall. specialize (Hall kr Hin).
  apply andb_true_iff in Hall as [Hall Htgt].
  apply andb_true_iff in Hall as [Hall Hsrc].
  apply andb_true_iff in Hall as [Htable Hdomain].
  split; [exact Htable|]. split; [exact Hdomain|].
  split; apply String.eqb_eq; [exact Hsrc|exact Htgt].
Qed.

Lemma registry_entries_in_table (k : string * string) (r : ConversionRoute) :
  registry !! k = Some r →
  in_spec_table (k, r) = true ∧ same_domain_if_known r = true
  ∧ source_format r = k.1 ∧ target_format r = k.2.
Proof.
  intros H%elem_of_map_to_list. exact (registry_entries_checked (k, r) H).
Qed.

Lemma in_spec_table_elem (kr : string * string * ConversionRoute) :
  in_spec_table kr = true → (kr.1.1, kr.1.2, lossy kr.2) ∈ spec_route_table.
Proof.
  unfold in_spec_table. rewrite existsb_exists.
  intros [[[s t] l] [Hin H]]. apply list_elem_of_In.
  repeat (apply andb_true_iff in H as [H ?]).
  apply String.eqb_eq in H. subst s.
  match goal with E : String.eqb _ _ = true |- _ => apply String.eqb_eq in E; subst t end.
  match goal with E : Bool.eqb _ _ = true |- _ => apply Bool.eqb_prop in E; subst l end.
  exact Hin.
Qed.

(** ** C1 *)

(** C1 as stated fails at ("heic", "mp3"): the pair is unregistered, "heic"
    is an image format and "mp3" an audio format, so [get_route] raises the
    cross-domain error there and not the not-found error. *)
Lemma get_route_heic_mp3_not_route_not_found :
  registry !! (lower "heic", lower "mp3") = None
  ∧ get_route registry "heic" "mp3"
    = Raise (ValueError (cross_domain_message "heic" "mp3" IMAGE AUDIO))
  ∧ get_route registry "heic" "mp3"
    ≠ Raise (ValueError (no_route_message "heic" "mp3")).
Proof.
  split; [vm_compute; reflexivity|].
  assert (get_route registry "heic" "mp3"
          = Raise (ValueError (cross_domain_message "heic" "mp3" IMAGE AUDIO)))
    as H by (vm_compute; reflexivity).
  split; [exact H|]. rewrite H. intros E.
  apply (messages_distinct "heic" "mp3" "heic" "mp3" IMAGE AUDIO).
  exact (f_equal (λ r : Result ConversionRoute,
                    match r with Raise e => message_of e | Return _ => [] end)
                 E).
Qed.

(** C1 (amended). For a pair with no registered route, [get_route] raises
    the cross-domain [ValueError], whose message carries both domains,
    when both formats are in the catalog with different domains, and the
    not-found [ValueError] for every other unregistered pair; the two
    messages never coincide. In the default registry ("mp4", "pdf") and
    ("heic", "mp3") both raise the cross-domain error, and the unregistered
    image pair ("heic", "gif") raises the not-found error. *)
Theorem get_route_unregistered_error (self : ConversionRegistry) (s t : string) :
  self !! (lower s, lower t) = None →
  (∀ d1 d2, get_media_type s = Some d1 → get_media_type t = Some d2 →
            d1 ≠ d2 →
            get_route self s t
            = Raise (ValueError (cross_domain_message s t d1 d2)))
  ∧ (get_media_type s = None ∨ get_media_type t = None
     ∨ get_media_type s = get_media_type t →
     get_route self s t = Raise (ValueError (no_route_message s t)))
  ∧ (∀ d1 d2, cross_domain_message s t d1 d2 ≠ no_route_message s t)
  ∧ (∀ d1 d2 e1 e2,
        cross_domain_message s t d1 d2 = cross_domain_message s t e1 e2 →
        d1 = e1 ∧ d2 = e2)
  ∧ get_route registry "mp4" "pdf"
    = Raise (ValueError (cross_domain_message "mp4" "pdf" VIDEO DOCUMENT))
  ∧ get_route registry "heic" "mp3"
    = Raise (ValueError (cross_domain_message "heic" "mp3" IMAGE AUDIO))
  ∧ get_route registry "heic" "gif"
    = Raise (ValueError (no_route_message "heic" "gif")).
Proof.
  intros Hnone. split_ands.
  - intros d1 d2. now apply get_route_cross_domain.
  - now apply get_route_not_found.
  - intros d1 d2. apply messages_distinct.
  - intros d1 d2 e1 e2. apply cross_domain_message_domains.
  - vm_compute; reflexivity.
  - vm_compute; reflexivity.
  - vm_compute; reflexivity.
Qed.

Lemma get_route_unregistered_error_witness :
  registry !! (lower "mp4", lower "pdf") = None
  ∧ get_route registry "mp4" "pdf"
    = Raise (ValueError (cross_domain_message "mp4" "pdf" VIDEO DOCUMENT)).
Proof.
  assert (registry !! (lower "mp4", lower "pdf") = None) as H
      by (vm_compute; reflexivity).
  split; [exact H|].
  apply (proj1 (get_route_unregistered_error registry "mp4" "pdf" H)).
  - vm_compute; reflexivity.
  - vm_compute; reflexivity.
  - discriminate.
Defined.

(** ** C2 *)

(** C2. The table of the specification has 14 image, 9 video, 10 audio and
    2 document entries; for each of its triples [is_valid] is true and
    [get_route] returns a route for that pair with the lossy flag of the
    table; and every registered pair is an entry of the table, with the
    lossy flag of its route. *)
Theorem default_registry_matches_table :
  (length spec_image_routes = 14 ∧ length spec_video_routes = 9
   ∧ length spec_audio_routes = 10 ∧ length spec_document_routes = 2)
  ∧ Forall (λ '(s, t, l),
              is_valid registry s t = true
              ∧ ∃ r, get_route registry s t = Return r ∧ lossy r = l
                     ∧ source_format r = s ∧ target_format r = t)
           spec_route_table
  ∧ (∀ k r, registry !! k = Some r → (k.1, k.2, lossy r) ∈ spec_route_table)
  ∧ (∀ s t, is_valid registry s t = true →
            ∃ l, (lower s, lower t, l) ∈ spec_route_table)
  ∧ size registry = 35.
Proof.
  split; [split_ands; reflexivity|]. split_ands.
  - unfold spec_route_table, spec_image_routes, spec_video_routes,
      spec_audio_routes, spec_document_routes. simpl app.
    repeat (apply Forall_cons; split;
            [split; [vm_compute; reflexivity
                    |eexists; split; [vm_compute; reflexivity|split_ands; reflexivity]]|]).
    constructor.
  - intros k r H. apply registry_entries_in_table in H as [H _].
    now apply in_spec_table_elem in H.
  - intros s t [r H]%is_valid_true. exists (lossy r).
    apply registry_entries_in_table in H as [H _].
    now apply in_spec_table_elem in H.
  - vm_compute; reflexivity.
Qed.

(** ** C5 *)

(** C5. For every registry and source format, [get_valid_targets] returns
    a list, sorted in ascending order, whose members are exactly the
    targets registered for the lowercased source; it is the empty list
    when there is none. In the default registry the targets of "heic" are
    ["jpg"; "png"] and those of "xyz" are []. *)
Theorem get_valid_targets_sorted_complete
        (self : ConversionRegistry) (source_format : string) :
  (∀ t, t ∈ get_valid_targets self source_format
        ↔ is_Some (self !! (lower source_format, t)))
  ∧ StronglySorted String.le (get_valid_targets self source_format)
  ∧ ((∀ t, self !! (lower source_format, t) = None) →
     get_valid_targets self source_format = [])
  ∧ get_valid_targets registry "heic" = ["jpg"; "png"]
  ∧ get_valid_targets registry "xyz" = [].
Proof.
  split_ands.
  - intros t. apply elem_of_get_valid_targets.
  - apply sorted_StronglySorted.
  - intros Hnone. apply elem_of_nil_inv. intros t Ht.
    apply elem_of_get_valid_targets in Ht as [r Hr]. now rewrite Hnone in Hr.
  - vm_compute; reflexivity.
  - vm_compute; reflexivity.
Qed.

(** ** C6 *)

(** C6. When [s'] is a case variant of [s] and [t'] one of [t], [is_valid]
    gives for [s'], [t'] what it gives for the lowercase forms of [s], [t],
    and [get_route] returns the same route for both pairs or raises the
    same error for both (cross-domain with the same two domains, or
    not-found). In the default registry
    [is_valid "HEIC" "JPG" = is_valid "heic" "jpg"]. *)
Theorem lookups_case_insensitive
        (self : ConversionRegistry) (s t s' t' : string) :
  case_variant s s' → case_variant t t' →
  is_valid self s' t' = is_valid self (lower s) (lower t)
  ∧ is_valid self s' t' = is_valid self s t
  ∧ ((∃ r, get_route self s t = Return r ∧ get_route self s' t' = Return r)
     ∨ (∃ d1 d2,
           d1 ≠ d2
           ∧ get_route self s t
             = Raise (ValueError (cross_domain_message s t d1 d2))
           ∧ get_route self s' t'
             = Raise (ValueError (cross_domain_message s' t' d1 d2)))
     ∨ (get_route self s t = Raise (ValueError (no_route_message s t))
        ∧ get_route self s' t' = Raise (ValueError (no_route_message s' t'))))
  ∧ is_valid registry "HEIC" "JPG" = is_valid registry "heic" "jpg".
Proof.
  intros Hs%case_variant_lower Ht%case_variant_lower. split_ands.
  - unfold is_valid. now rewrite !lower_idemp, Hs, Ht.
  - unfold is_valid. now rewrite Hs, Ht.
  - unfold get_route. rewrite <- Hs, <- Ht.
    destruct (self !! (lower s, lower t)) as [r|]; [left; eauto|right].
    destruct (EXTENSION_MEDIA_TYPE !! lower s) as [d1|];
      destruct (EXTENSION_MEDIA_TYPE !! lower t) as [d2|]; auto.
    case_bool_decide; [left; eauto|auto].
  - vm_compute; reflexivity.
Qed.

Lemma lookups_case_insensitive_witness :
  is_valid registry "HeIc" "jPG" = is_valid registry "heic" "jpg".
Proof.
  apply (lookups_case_insensitive registry "heic" "jpg" "HeIc" "jPG").
  - repeat constructor.
  - repeat constructor.
Defined.

(** ** C7 *)

Lemma exec_all_lookups (cs : list RegistryObject.Call)
      (self : ConversionRegistry) :
  forallb RegistryObject.is_lookup cs = true →
  (RegistryObject.exec_all cs self).2 = self.
Proof.
  revert self. induction cs as [|c cs IH]; intros self H; [reflexivity|].
  simpl in H. apply andb_true_iff in H as [Hc Hcs]. simpl.
  destruct c; try discriminate; simpl;
    specialize (IH self Hcs);
    destruct (RegistryObject.exec_all cs self) as [answers self'];
    exact IH.
Qed.

(** C7. Two calls of [get_route] with the same pair, with any lookups in
    between, give the same answer (the same route, field by field, or the
    same error), and the registry after them is the registry before
    them. *)
Theorem get_route_twice_same_route
        (self : ConversionRegistry) (s t : string)
        (between : list RegistryObject.Call) :
  forallb RegistryObject.is_lookup between = true →
  ∃ answers,
    RegistryObject.exec_all
      (RegistryObject.CallGetRoute s t
         :: between ++ [RegistryObject.CallGetRoute s t]) self
    = (RegistryObject.AnsRoute (get_route self s t)
         :: answers ++ [RegistryObject.AnsRoute (get_route self s t)], self)
    ∧ RegistryObject.exec_all
        [RegistryObject.CallGetRoute s t; RegistryObject.CallGetRoute s t] self
      = ([RegistryObject.AnsRoute (get_route self s t);
          RegistryObject.AnsRoute (get_route self s t)], self)
    ∧ ∀ r1 r2, get_route self s t = Return r1 →
               get_route self s t = Return r2 →
               source_format r1 = source_format r2
               ∧ target_format r1 = target_format r2
               ∧ converter_class r1 = converter_class r2
               ∧ lossy r1 = lossy r2.
Proof.
  intros Hbetween.
  exists (RegistryObject.exec_all between self).1. split_ands.
  - cbn [RegistryObject.exec_all RegistryObject.exec].
    assert (∀ cs self0,
               RegistryObject.exec_all
                 (cs ++ [RegistryObject.CallGetRoute s t]) self0
               = ((RegistryObject.exec_all cs self0).1
                    ++ [RegistryObject.AnsRoute
                          (get_route (RegistryObject.exec_all cs self0).2 s t)],
                  (RegistryObject.exec_all cs self0).2)) as Happ.
    { induction cs as [|c cs IH]; intros self0; [reflexivity|].
      cbn [app RegistryObject.exec_all].
      destruct (RegistryObject.exec c self0) as [a self1].
      rewrite IH.
      now destruct (RegistryObject.exec_all cs self1). }
    rewrite Happ, (exec_all_lookups between self Hbetween). reflexivity.
  - reflexivity.
  - intros r1 r2 H1 H2. rewrite H1 in H2. injection H2 as ->. auto.
Qed.

Lemma get_route_twice_same_route_witness :
  ∃ answers,
    RegistryObject.exec_all
      (RegistryObject.CallGetRoute "heic" "jpg"
         :: [RegistryObject.CallIsValid "png" "gif";
             RegistryObject.CallGetValidTargets "mp4"]
         ++ [RegistryObject.CallGetRoute "heic" "jpg"]) registry
    = (RegistryObject.AnsRoute (get_route registry "heic" "jpg")
         :: answers
         ++ [RegistryObject.AnsRoute (get_route registry "heic" "jpg")],
       registry).
Proof.
  destruct (get_route_twice_same_route
              registry "heic" "jpg"
              [RegistryObject.CallIsValid "png" "gif";
               RegistryObject.CallGetValidTargets "mp4"] eq_refl)
    as [answers [H _]].
  exists answers. exact H.
Defined.

(** ** C8 *)

(** C8. Every route of the default registry whose source and target
    formats are both in the catalog has them in the same domain. *)
Theorem default_routes_same_domain
        (k : string * string) (r : ConversionRoute) (d1 d2 : MediaType) :
  registry !! k = Some r →
  get_media_type (source_format r) = Some d1 →
  get_media_type (target_format r) = Some d2 →
  d1 = d2
  ∧ EXTENSION_MEDIA_TYPE !! k.1 = Some d1
  ∧ EXTENSION_MEDIA_TYPE !! k.2 = Some d2.
Proof.
  intros Hr H1 H2.
  destruct (registry_entries_in_table k r Hr) as (_ & Hdom & Hsrc & Htgt).
  unfold same_domain_if_known in Hdom. rewrite H1, H2 in Hdom.
  apply bool_decide_eq_true in Hdom. split; [exact Hdom|].
  assert (∀ kr : string * string * ConversionRoute,
             kr ∈ map_to_list registry → lower kr.1.1 = kr.1.1
                                          ∧ lower kr.1.2 = kr.1.2) as Hlow.
  { intros kr Hin%list_elem_of_In.
    assert (forallb (λ kr : string * string * ConversionRoute,
                       String.eqb (lower kr.1.1) kr.1.1
                       && String.eqb (lower kr.1.2) kr.1.2)
                    (map_to_list registry) = true) as Hall
        by (vm_compute; reflexivity).
    rewrite forallb_forall in Hall. specialize (Hall kr Hin).
    apply andb_true_iff in Hall as [Ha Hb].
    split; apply String.eqb_eq; [exact Ha|exact Hb]. }
  apply elem_of_map_to_list in Hr. destruct (Hlow (k, r) Hr) as [Hk1 Hk2].
  simpl in Hk1, Hk2. unfold get_media_type in H1, H2.
  rewrite Hsrc, Hk1 in H1. rewrite Htgt, Hk2 in H2. split; assumption.
Qed.

Lemma default_routes_same_domain_witness :
  IMAGE = IMAGE
  ∧ EXTENSION_MEDIA_TYPE !! "heic" = Some IMAGE
  ∧ EXTENSION_MEDIA_TYPE !! "jpg" = Some IMAGE.
Proof.
  apply (default_routes_same_domain
           ("heic", "jpg") (mkRoute "heic" "jpg" ImageConverter true)).
  - vm_compute; reflexivity.
  - vm_compute; reflexivity.
  - vm_compute; reflexivity.
Defined.

(** ** C9 *)

Lemma get_route_raise_unregistered (self : ConversionRegistry) (s t : string)
      (e : Exception) :
  get_route self s t = Raise e → self !! (lower s, lower t) = None.
Proof.
  unfold get_route. destruct (self !! (lower s, lower t)); [discriminate|].
  reflexivity.
Qed.

(** C9. [register] stores a route under its lowercased pair whatever the
    domains of its formats, and [get_route] returns the route stored under
    a registered key without looking at the domains; an error of
    [get_route], the cross-domain one included, only arises for a pair
    that is not registered. *)
Theorem registered_route_returned_unchecked
        (self : ConversionRegistry) (s t : string) (r : ConversionRoute) :
  self !! (lower s, lower t) = Some r →
  get_route self s t = Return r
  ∧ (∀ route,
        register self route
        !! (lower (source_format route), lower (target_format route))
        = Some route
        ∧ get_route (register self route)
                    (source_format route) (target_format route)
          = Return route)
  ∧ (∀ self' s' t' e,
        get_route self' s' t' = Raise e →
        self' !! (lower s', lower t') = None).
Proof.
  intros Hr. split_ands.
  - now apply get_route_registered.
  - intros route.
    assert (register self route
            !! (lower (source_format route), lower (target_format route))
            = Some route) as H by apply lookup_insert_eq.
    split; [exact H|]. now apply get_route_registered.
  - intros self' s' t' e. apply get_route_raise_unregistered.
Qed.

(** A video-to-document route, registered on top of the default routes,
    is returned for any spelling of its pair. *)
Lemma registered_route_returned_unchecked_witness :
  get_media_type "mp4" = Some VIDEO
  ∧ get_media_type "pdf" = Some DOCUMENT
  ∧ get_route (register registry (mkRoute "mp4" "pdf" DocumentConverter false))
              "MP4" "Pdf"
    = Return (mkRoute "mp4" "pdf" DocumentConverter false).
Proof.
  split; [vm_compute; reflexivity|]. split; [vm_compute; reflexivity|].
  refine (proj1 (registered_route_returned_unchecked
                   (register registry
                             (mkRoute "mp4" "pdf" DocumentConverter false))
                   "MP4" "Pdf" (mkRoute "mp4" "pdf" DocumentConverter false)
                   _)).
  vm_compute; reflexivity.
Defined.

(** ** C10 *)

(** C10. For a lowercase target [t], [t] is among the valid targets of a
    source exactly when [is_valid] holds of the pair, and the list of
    valid targets has no duplicates. *)
Theorem valid_targets_agree_with_is_valid
        (self : ConversionRegistry) (s t : string) :
  lower t = t →
  (t ∈ get_valid_targets self s ↔ is_valid self s t = true)
  ∧ NoDup (get_valid_targets self s).
Proof.
  intros Ht. split.
  - rewrite elem_of_get_valid_targets, is_valid_true, Ht. reflexivity.
  - unfold get_valid_targets. rewrite sorted_Permutation.
    apply NoDup_targets_of.
Qed.

Lemma valid_targets_agree_with_is_valid_witness :
  ("png" ∈ get_valid_targets registry "HEIC"
   ↔ is_valid registry "HEIC" "png" = true)
  ∧ NoDup (get_valid_targets registry "HEIC").
Proof.
  apply (valid_targets_agree_with_is_valid registry "HEIC" "png").
  vm_compute; reflexivity.
Defined.

(** ** The driver, file by file *)

(** A file with no registered route: the error is counted and logged, no
    prompt is shown, and the worker goes on. *)
Lemma process_file_unroutable (w : World) (i : nat) (file : Path)
      (self : ProgressScreen) (fs : FileSystem) (exc : Exception) :
  get_route registry (ext_of file) (_target_format self) = Raise exc →
  process_file w i file self fs
  = Finished (call (handle_exception file exc
                      (set_current_file self (Some file))) (Advance 1)) fs.
Proof.
  intros H. unfold process_file.
  change (_target_format (set_current_file self (Some file)))
    with (_target_format self).
  now rewrite H.
Qed.

Lemma target_format_if (b : bool) (x y : ProgressScreen) :
  _target_format x = _target_format y →
  _target_format (if b then x else y) = _target_format y.
Proof. now destruct b. Qed.

(** A file that converts and whose prompt is answered. *)
Lemma process_file_converted (w : World) (i : nat) (file output : Path)
      (self : ProgressScreen) (fs : FileSystem) (r : ConversionRoute)
      (d : Decision) :
  get_route registry (ext_of file) (_target_format self) = Return r →
  convert w i (converter_class r) file (_target_format self) = Return output →
  pressed w i = Some d →
  process_file w i file self fs
  = Finished (call (press d (screen_at_prompt file output r self) fs).1
                   (Advance 1))
             (press d (screen_at_prompt file output r self) fs).2.
Proof.
  intros Hr Hc Hp. unfold process_file.
  change (_target_format (set_current_file self (Some file)))
    with (_target_format self).
  rewrite Hr. cbv zeta. rewrite target_format_if by reflexivity.
  change (_target_format (set_current_file self (Some file)))
    with (_target_format self).
  rewrite Hc. unfold _wait_for_prompt.
  change (prompt_visible (_show_keep_prompt file ?x)) with true.
  cbv iota. rewrite Hp. unfold screen_at_prompt.
  now destruct (press d _ fs).
Qed.

(** A file that converts and whose prompt is never answered. *)
Lemma process_file_unanswered (w : World) (i : nat) (file output : Path)
      (self : ProgressScreen) (fs : FileSystem) (r : ConversionRoute) :
  get_route registry (ext_of file) (_target_format self) = Return r →
  convert w i (converter_class r) file (_target_format self) = Return output →
  pressed w i = None →
  process_file w i file self fs
  = Blocked (screen_at_prompt file output r self) fs.
Proof.
  intros Hr Hc Hp. unfold process_file.
  change (_target_format (set_current_file self (Some file)))
    with (_target_format self).
  rewrite Hr. cbv zeta. rewrite target_format_if by reflexivity.
  change (_target_format (set_current_file self (Some file)))
    with (_target_format self).
  rewrite Hc. unfold _wait_for_prompt.
  change (prompt_visible (_show_keep_prompt file ?x)) with true.
  cbv iota. now rewrite Hp.
Qed.

(** The target format of a screen never changes. *)
Lemma target_format_screen_at_prompt (file output : Path) (r : ConversionRoute)
      (self : ProgressScreen) :
  _target_format (screen_at_prompt file output r self) = _target_format self.
Proof. unfold screen_at_prompt. now destruct (lossy r). Qed.

Lemma target_format_press (d : Decision) (self : ProgressScreen)
      (fs : FileSystem) :
  _target_format (press d self fs).1 = _target_format self.
Proof.
  destruct d; unfold press, on_keep, on_delete;
    destruct (_current_file self) as [file|] eqn:Ecur;
    destruct (_converted_output self) as [output|] eqn:Eout;
    try destruct (unlink file fs) as [[e|] fs1];
    cbn; rewrite ?Ecur, ?Eout; reflexivity.
Qed.

(** ** What one step adds to the log, the panel and the counters *)

(** Reduce the projections of a screen that is given by its fields. *)
Ltac proj_simpl :=
  cbn [_files _target_format _current_file _converted_output _stats _logger
       prompt_visible ui success skipped errors log_file records].

(** Unfold the updates of a screen and of its logger, and put the
    appended lists in right-nested form. *)
Ltac screen_simpl :=
  unfold handle_exception, _show_keep_prompt, _dismiss_prompt, write_line,
    incr_success, incr_errors, call, set_logger, set_stats,
    set_converted_output, set_current_file, log_conversion, log_delete,
    log_error, emit;
  cbn; rewrite <- ?app_assoc; cbn.

(** The handler of a button, on a screen whose current file and output are
    set: the removal record, if any, then one SUCCESS record; the prompt
    is dismissed. *)
Lemma press_effect (d : Decision) (self : ProgressScreen) (fs : FileSystem)
      (file output : Path) :
  _current_file self = Some file →
  _converted_output self = Some output →
  press d self fs
  = (mkScreen (_files self) (_target_format self) (Some file) (Some output)
              (_stats self)
              (mkLogger (log_file (_logger self))
                        (records (_logger self)
                         ++ removal_records d file fs
                         ++ [Conversion (name file) (name output)
                                        (kept_flag d)]))
              false (ui self ++ [DismissPrompt]),
     disk_after d file fs).
Proof.
  destruct self as [files target cur out stats [lf recs] vis calls].
  cbn. intros -> ->. destruct d; unfold press, on_keep, on_delete.
  - screen_simpl. reflexivity.
  - unfold removal_records, disk_after. cbn.
    destruct (unlink file fs) as [[e|] fs1]; screen_simpl; reflexivity.
Qed.

Lemma screen_at_prompt_effect (file output : Path) (r : ConversionRoute)
      (self : ProgressScreen) :
  screen_at_prompt file output r self
  = mkScreen (_files self) (_target_format self) (Some file) (Some output)
             (mkStats (S (success (_stats self))) (skipped (_stats self))
                      (errors (_stats self)))
             (_logger self) true
             (ui self ++ conversion_lines file output r
                      ++ [ShowKeepPrompt file]).
Proof.
  destruct self as [files target cur out stats lg vis calls].
  unfold screen_at_prompt, conversion_lines.
  destruct (lossy r); screen_simpl; reflexivity.
Qed.

(** A converted file whose prompt is answered, in closed form. *)
Lemma process_file_converted_effect (w : World) (i : nat) (file output : Path)
      (self : ProgressScreen) (fs : FileSystem) (r : ConversionRoute)
      (d : Decision) :
  get_route registry (ext_of file) (_target_format self) = Return r →
  convert w i (converter_class r) file (_target_format self) = Return output →
  pressed w i = Some d →
  process_file w i file self fs
  = Finished
      (mkScreen (_files self) (_target_format self) (Some file) (Some output)
                (mkStats (S (success (_stats self))) (skipped (_stats self))
                         (errors (_stats self)))
                (mkLogger (log_file (_logger self))
                          (records (_logger self)
                           ++ removal_records d file fs
                           ++ [Conversion (name file) (name output)
                                          (kept_flag d)]))
                false
                (ui self ++ conversion_lines file output r
                         ++ [ShowKeepPrompt file; DismissPrompt; Advance 1]))
      (disk_after d file fs).
Proof.
  intros Hr Hc Hp.
  rewrite (process_file_converted w i file output self fs r d Hr Hc Hp).
  rewrite (press_effect d _ fs file output)
    by (rewrite screen_at_prompt_effect; reflexivity).
  rewrite screen_at_prompt_effect. screen_simpl. reflexivity.
Qed.

(** An unroutable file, in closed form. *)
Lemma process_file_unroutable_effect (w : World) (i : nat) (file : Path)
      (self : ProgressScreen) (fs : FileSystem) (exc : Exception) :
  get_route registry (ext_of file) (_target_format self) = Raise exc →
  process_file w i file self fs
  = Finished
      (mkScreen (_files self) (_target_format self) (Some file)
                (_converted_output self)
                (mkStats (success (_stats self)) (skipped (_stats self))
                         (S (errors (_stats self))))
                (mkLogger (log_file (_logger self))
                          (records (_logger self)
                           ++ [Error (name file) (type_name_of exc)
                                     (message_of exc)]))
                (prompt_visible self)
                (ui self ++ [WriteLine (Failed (name file) (message_of exc));
                             Advance 1]))
      fs.
Proof.
  intros H. rewrite (process_file_unroutable w i file self fs exc H).
  destruct self as [files target cur out stats [lf recs] vis calls].
  screen_simpl. reflexivity.
Qed.

(** The end of a run: the summary and the three closing lines. *)
Lemma finish_effect (self : ProgressScreen) :
  _show_done (set_logger self (log_summary (items (_stats self))
                                           (_logger self)))
  = mkScreen (_files self) (_target_format self) (_current_file self)
             (_converted_output self) (_stats self)
             (mkLogger (log_file (_logger self))
                       (records (_logger self)
                        ++ [Banner; SummaryTitle;
                            SummaryItem "success" (success (_stats self));
                            SummaryItem "skipped" (skipped (_stats self));
                            SummaryItem "errors" (errors (_stats self));
                            Banner]))
             (prompt_visible self)
             (ui self ++ [WriteLine Blank;
                          WriteLine (Done (success (_stats self))
                                          (errors (_stats self)));
                          WriteLine (LogSavedTo (log_file (_logger self)))]).
Proof.
  destruct self as [files target cur out stats [lf recs] vis calls].
  unfold _show_done, log_summary, items, get_log_path. screen_simpl.
  reflexivity.
Qed.

(** Counting over the pieces of a log. *)
Lemma count_status_app (s : ConversionStatus) (l1 l2 : list LogRecord) :
  count_status s (l1 ++ l2) = count_status s l1 + count_status s l2.
Proof. unfold count_status. now rewrite filter_app, length_app. Qed.

Lemma count_status_cons (s : ConversionStatus) (r : LogRecord)
      (l : list LogRecord) :
  count_status s (r :: l)
  = (if has_status s r then 1 else 0) + count_status s l.
Proof.
  unfold count_status. rewrite filter_cons.
  destruct (decide (has_status s r = true)) as [H|H].
  - now rewrite H.
  - now destruct (has_status s r).
Qed.

Lemma count_calls_cons (p : UiCall → bool) (c : UiCall) (l : list UiCall) :
  count_calls p (c :: l) = (if p c then 1 else 0) + count_calls p l.
Proof.
  unfold count_calls. rewrite filter_cons.
  destruct (decide (p c = true)) as [H|H].
  - now rewrite H.
  - now destruct (p c).
Qed.

Lemma count_calls_app (p : UiCall → bool) (l1 l2 : list UiCall) :
  count_calls p (l1 ++ l2) = count_calls p l1 + count_calls p l2.
Proof. unfold count_calls. now rewrite filter_app, length_app. Qed.

Lemma prompted_app (l1 l2 : list UiCall) :
  prompted (l1 ++ l2) = prompted l1 ++ prompted l2.
Proof. unfold prompted. apply omap_app. Qed.

Lemma summary_of_app (l1 l2 : list LogRecord) :
  summary_of (l1 ++ l2) = summary_of l1 ++ summary_of l2.
Proof. unfold summary_of. apply omap_app. Qed.

Lemma removal_records_counts (d : Decision) (file : Path) (fs : FileSystem) :
  count_status SUCCESS (removal_records d file fs) = 0
  ∧ count_status ERROR (removal_records d file fs)
    = (if removal_fails d file fs then 1 else 0)
  ∧ summary_of (removal_records d file fs) = [].
Proof.
  unfold removal_records, removal_fails. destruct d; [now cbn|].
  destruct (unlink file fs).1; now cbn.
Qed.

Lemma conversion_lines_counts (file output : Path) (r : ConversionRoute) :
  count_calls is_converted_line (conversion_lines file output r) = 1
  ∧ count_calls is_failed_line (conversion_lines file output r) = 0
  ∧ prompted (conversion_lines file output r) = [].
Proof. unfold conversion_lines. destruct (lossy r); now cbn. Qed.

(** ** C3 *)

(** C3 as stated fails when the removal of an original fails. In the batch
    [a.heic; b.xyz; c.png] converted to "jpg", b.xyz has no route and the
    two other files convert; the user asks for the removal of a.heic,
    which the file system refuses. The session log then holds two ERROR
    records (the refused removal and the missing route), not one, while the
    summary still counts one error. *)
Lemma batch_with_refused_removal_logs_two_errors :
  get_route registry (ext_of Scenario.b_xyz) "jpg"
  = Raise (ValueError (no_route_message "xyz" "jpg"))
  ∧ is_return (get_route registry (ext_of Scenario.a_heic) "jpg") = true
  ∧ is_return (get_route registry (ext_of Scenario.c_png) "jpg") = true
  ∧ ∃ self fs,
      _run_conversions Scenario.world Scenario.screen Scenario.disk
      = Finished self fs
      ∧ count_status SUCCESS (records (_logger self)) = 2
      ∧ count_status ERROR (records (_logger self)) = 2
      ∧ count_status ERROR (records (_logger self)) ≠ 1
      ∧ summary_of (records (_logger self))
        = [("success", 2); ("skipped", 0); ("errors", 1)].
Proof.
  split; [vm_compute; reflexivity|].
  split; [vm_compute; reflexivity|].
  split; [vm_compute; reflexivity|].
  eexists _, _. split; [vm_compute; reflexivity|].
  split; [vm_compute; reflexivity|].
  split; [vm_compute; reflexivity|].
  split; [vm_compute; discriminate|].
  vm_compute; reflexivity.
Qed.

(** C3 (amended). In a batch of three files in which the second has no
    registered route, the two others convert and both prompts are
    answered, the run finishes; the log panel shows two conversions and one
    failure; the prompt is shown for the first and the third file only; the
    session log holds two SUCCESS records and one ERROR record for the
    second file, plus one ERROR record for each removal that the file
    system refuses; and the summary counts two successes and one error. *)
Theorem batch_with_unroutable_second_file
        (w : World) (f1 f2 f3 o1 o3 : Path) (target log_file : string)
        (fs : FileSystem) (r1 r3 : ConversionRoute) (e2 : Exception)
        (d1 d3 : Decision) :
  get_route registry (ext_of f1) target = Return r1 →
  convert w 0 (converter_class r1) f1 target = Return o1 →
  get_route registry (ext_of f2) target = Raise e2 →
  get_route registry (ext_of f3) target = Return r3 →
  convert w 2 (converter_class r3) f3 target = Return o3 →
  pressed w 0 = Some d1 →
  pressed w 2 = Some d3 →
  ∃ self fs',
    _run_conversions w (Driver.init [f1; f2; f3] target log_file) fs
    = Finished self fs'
    ∧ count_calls is_converted_line (ui self) = 2
    ∧ count_calls is_failed_line (ui self) = 1
    ∧ prompted (ui self) = [f1; f3]
    ∧ count_status SUCCESS (records (_logger self)) = 2
    ∧ count_status ERROR (records (_logger self))
      = 1 + (if removal_fails d1 f1 fs then 1 else 0)
          + (if removal_fails d3 f3 (disk_after d1 f1 fs) then 1 else 0)
    ∧ Error (name f2) (type_name_of e2) (message_of e2)
      ∈ records (_logger self)
    ∧ summary_of (records (_logger self))
      = [("success", 2); ("skipped", 0); ("errors", 1)]
    ∧ _stats self = mkStats 2 0 1
    ∧ fs' = disk_after d3 f3 (disk_after d1 f1 fs).
Proof.
  intros Hr1 Hc1 Hr2 Hr3 Hc3 Hp1 Hp3.
  unfold _run_conversions, Driver.init. proj_simpl. cbn [loop].
  match goal with
  | |- context [process_file w 0 f1 ?S ?F] =>
      rewrite (process_file_converted_effect w 0 f1 o1 S F r1 d1 Hr1 Hc1 Hp1)
  end.
  proj_simpl.
  match goal with
  | |- context [process_file w 1 f2 ?S ?F] =>
      rewrite (process_file_unroutable_effect w 1 f2 S F e2 Hr2)
  end.
  proj_simpl.
  match goal with
  | |- context [process_file w 2 f3 ?S ?F] =>
      rewrite (process_file_converted_effect w 2 f3 o3 S F r3 d3 Hr3 Hc3 Hp3)
  end.
  proj_simpl.
  rewrite finish_effect. proj_simpl.
  eexists _, _. split; [reflexivity|]. proj_simpl.
  destruct (removal_records_counts d1 f1 fs) as (Hs1 & He1 & Hm1).
  destruct (removal_records_counts d3 f3 (disk_after d1 f1 fs))
    as (Hs3 & He3 & Hm3).
  destruct (conversion_lines_counts f1 o1 r1) as (Hc1a & Hc1b & Hc1c).
  destruct (conversion_lines_counts f3 o3 r3) as (Hc3a & Hc3b & Hc3c).
  unfold Logger.init, _log_session_start, emit. proj_simpl.
  rewrite <- ?app_assoc.
  rewrite ?count_calls_app, ?count_status_app, ?prompted_app, ?summary_of_app,
    ?count_calls_cons, ?count_status_cons,
    Hs1, He1, Hm1, Hs3, He3, Hm3, Hc1a, Hc1b, Hc1c, Hc3a, Hc3b, Hc3c.
  split_ands; try reflexivity.
  - change (count_status ERROR []) with 0. cbn [has_status status_of].
    destruct (removal_fails d1 f1 fs),
      (removal_fails d3 f3 (disk_after d1 f1 fs)); reflexivity.
  - rewrite !elem_of_app, !elem_of_cons. auto 20.
Qed.

Lemma batch_with_unroutable_second_file_witness :
  ∃ self fs',
    _run_conversions Scenario.world
                     (Driver.init [Scenario.a_heic; Scenario.b_xyz;
                                   Scenario.c_png] "jpg" "converter.log")
                     Scenario.disk
    = Finished self fs'
    ∧ count_status SUCCESS (records (_logger self)) = 2
    ∧ prompted (ui self) = [Scenario.a_heic; Scenario.c_png]
    ∧ _stats self = mkStats 2 0 1.
Proof.
  destruct (batch_with_unroutable_second_file
              Scenario.world Scenario.a_heic Scenario.b_xyz Scenario.c_png
              Scenario.a_jpg Scenario.c_jpg "jpg" "converter.log"
              Scenario.disk
              (mkRoute "heic" "jpg" ImageConverter true)
              (mkRoute "png" "jpg" ImageConverter true)
              (ValueError (no_route_message "xyz" "jpg"))
              DeleteOriginal KeepOriginal)
    as (self & fs' & Hrun & _ & _ & Hprompt & Hsucc & _ & _ & _ & Hstats & _).
  - vm_compute; reflexivity.
  - vm_compute; reflexivity.
  - vm_compute; reflexivity.
  - vm_compute; reflexivity.
  - vm_compute; reflexivity.
  - vm_compute; reflexivity.
  - vm_compute; reflexivity.
  - exists self, fs'. repeat (split; [assumption|]). assumption.
Defined.

(** The worker finishes the batch whenever every prompt is answered:
    neither a missing route nor a failing codec stops the loop. *)
Lemma loop_finishes (w : World) (files : list Path) :
  (∀ i, is_Some (pressed w i)) →
  ∀ i self fs, ∃ self' fs', loop w i files self fs = Finished self' fs'.
Proof.
  intros Hans. induction files as [|file rest IH]; intros i self fs.
  - now exists self, fs.
  - cbn [loop].
    assert (∃ self1 fs1, process_file w i file self fs = Finished self1 fs1)
      as (self1 & fs1 & ->).
    { unfold process_file.
      destruct (get_route registry _ _) as [r|exc]; [|eauto].
      cbv zeta. destruct (convert w i _ _ _) as [output|exc]; [|eauto].
      unfold _wait_for_prompt.
      change (prompt_visible (_show_keep_prompt file ?x)) with true.
      cbv iota. destruct (Hans i) as [d ->].
      destruct (press d _ fs) as [self1 fs1]. eauto. }
    apply IH.
Qed.

(** ** C4 *)

(** Whatever the button, the handler appends exactly one SUCCESS record,
    after the record of the removal, and its flag is the button that was
    pressed. *)
Lemma press_logs_one_conversion (d : Decision) (self : ProgressScreen)
      (fs : FileSystem) (file output : Path) :
  _current_file self = Some file →
  _converted_output self = Some output →
  records (_logger (press d self fs).1)
  = records (_logger self) ++ removal_records d file fs
    ++ [Conversion (name file) (name output) (kept_flag d)]
  ∧ count_status SUCCESS (records (_logger (press d self fs).1))
    = count_status SUCCESS (records (_logger self)) + 1
  ∧ prompt_visible (press d self fs).1 = false.
Proof.
  intros Hcur Hout. rewrite (press_effect d self fs file output Hcur Hout).
  proj_simpl. cbn [fst]. proj_simpl. split; [reflexivity|]. split; [|reflexivity].
  rewrite !count_status_app.
  destruct (removal_records_counts d file fs) as (-> & _ & _).
  reflexivity.
Qed.

(** The flag is right when the original is kept and when its removal
    succeeds. *)
Lemma kept_flag_matches_disk (d : Decision) (file : Path) (fs : FileSystem) :
  file ∈ entries fs →
  removal_fails d file fs = false →
  kept_flag d = on_disk file (disk_after d file fs).
Proof.
  intros Hin Hok. destruct d; cbn in *.
  - unfold on_disk. now rewrite bool_decide_eq_true_2.
  - unfold unlink in Hok |- *.
    rewrite (bool_decide_eq_true_2 _ Hin) in Hok |- *.
    destruct (bool_decide (file ∈ undeletable fs)); cbn in *.
    + discriminate Hok.
    + unfold on_disk. cbn. symmetry. apply bool_decide_eq_false.
      rewrite list_elem_of_filter. tauto.
Qed.

(** C4, at the failing input. When the user asks for the removal of an
    original that the file system refuses to remove, [on_delete] logs the
    refusal as an ERROR record, goes on, dismisses the prompt and logs one
    SUCCESS record; but the flag of that record says the original was
    deleted, while the file is still on disk. *)
Theorem on_delete_refused_removal_logged_as_deleted
        (self : ProgressScreen) (fs : FileSystem) (file output : Path) :
  _current_file self = Some file →
  _converted_output self = Some output →
  file ∈ entries fs →
  file ∈ undeletable fs →
  ∃ exc,
    (unlink file fs).1 = Some exc
    ∧ records (_logger (on_delete self fs).1)
      = records (_logger self)
        ++ [Error (name file) (type_name_of exc) (message_of exc);
            Conversion (name file) (name output) false]
    ∧ prompt_visible (on_delete self fs).1 = false
    ∧ (on_delete self fs).2 = fs
    ∧ on_disk file (on_delete self fs).2 = true.
Proof.
  intros Hcur Hout Hin Hlock.
  pose proof (press_effect DeleteOriginal self fs file output Hcur Hout) as H.
  cbn [press] in H. rewrite H. clear H.
  unfold removal_records, disk_after, kept_flag, unlink.
  rewrite !bool_decide_eq_true_2 by assumption. cbn [fst snd]. proj_simpl.
  eexists. split; [reflexivity|]. split; [reflexivity|].
  split; [reflexivity|]. split; [reflexivity|].
  unfold on_disk. now rewrite bool_decide_eq_true_2.
Qed.

Lemma on_delete_refused_removal_logged_as_deleted_witness :
  ∃ exc,
    (unlink Scenario.a_heic Scenario.disk).1 = Some exc
    ∧ records (_logger (on_delete Scenario.at_prompt Scenario.disk).1)
      = records (_logger Scenario.at_prompt)
        ++ [Error "a.heic" (type_name_of exc) (message_of exc);
            Conversion "a.heic" "a.jpg" false]
    ∧ on_disk Scenario.a_heic (on_delete Scenario.at_prompt Scenario.disk).2
      = true.
Proof.
  destruct (on_delete_refused_removal_logged_as_deleted
              Scenario.at_prompt Scenario.disk Scenario.a_heic Scenario.a_jpg)
    as (exc & Hexc & Hrec & _ & _ & Hdisk).
  - reflexivity.
  - reflexivity.
  - apply (bool_decide_unpack _). vm_compute. exact I.
  - apply (bool_decide_unpack _). vm_compute. exact I.
  - exists exc. split; [exact Hexc|]. split; [exact Hrec|exact Hdisk].
Defined.

(** ** Every step of the worker *)

Lemma process_file_codec_failure (w : World) (i : nat) (file : Path)
      (self : ProgressScreen) (fs : FileSystem) (r : ConversionRoute)
      (exc : Exception) :
  get_route registry (ext_of file) (_target_format self) = Return r →
  convert w i (converter_class r) file (_target_format self) = Raise exc →
  process_file w i file self fs
  = Finished (after_failure file exc (lossy_lines file r) self) fs.
Proof.
  intros Hr Hc. unfold process_file.
  change (_target_format (set_current_file self (Some file)))
    with (_target_format self).
  rewrite Hr. cbv zeta. rewrite target_format_if by reflexivity.
  change (_target_format (set_current_file self (Some file)))
    with (_target_format self).
  rewrite Hc. unfold after_failure, lossy_lines.
  destruct self as [files target cur out stats [lf recs] vis calls].
  destruct (lossy r); screen_simpl; reflexivity.
Qed.

(** The four ways one iteration can go. *)
Lemma process_file_cases (w : World) (i : nat) (file : Path)
      (self : ProgressScreen) (fs : FileSystem) :
  (∃ exc,
      get_route registry (ext_of file) (_target_format self) = Raise exc
      ∧ process_file w i file self fs
        = Finished (after_failure file exc [] self) fs)
  ∨ (∃ r exc,
        get_route registry (ext_of file) (_target_format self) = Return r
        ∧ convert w i (converter_class r) file (_target_format self)
          = Raise exc
        ∧ process_file w i file self fs
          = Finished (after_failure file exc (lossy_lines file r) self) fs)
  ∨ (∃ r output d,
        get_route registry (ext_of file) (_target_format self) = Return r
        ∧ convert w i (converter_class r) file (_target_format self)
          = Return output
        ∧ pressed w i = Some d
        ∧ process_file w i file self fs
          = Finished (after_conversion file output r d fs self)
                     (disk_after d file fs))
  ∨ (∃ r output,
        get_route registry (ext_of file) (_target_format self) = Return r
        ∧ convert w i (converter_class r) file (_target_format self)
          = Return output
        ∧ pressed w i = None
        ∧ process_file w i file self fs
          = Blocked (screen_at_prompt file output r self) fs).
Proof.
  destruct (get_route registry (ext_of file) (_target_format self))
    as [r|exc] eqn:Hr.
  - destruct (convert w i (converter_class r) file (_target_format self))
      as [output|exc] eqn:Hc.
    + destruct (pressed w i) as [d|] eqn:Hp.
      * right. right. left. exists r, output, d.
        split; [reflexivity|]. split; [exact Hc|]. split; [reflexivity|].
        exact (process_file_converted_effect w i file output self fs r d
                 Hr Hc Hp).
      * right. right. right. exists r, output.
        split; [reflexivity|]. split; [exact Hc|]. split; [reflexivity|].
        exact (process_file_unanswered w i file output self fs r Hr Hc Hp).
    + right. left. exists r, exc.
      split; [reflexivity|]. split; [exact Hc|].
      exact (process_file_codec_failure w i file self fs r exc Hr Hc).
  - left. exists exc. split; [reflexivity|].
    rewrite (process_file_unroutable_effect w i file self fs exc Hr).
    unfold after_failure. reflexivity.
Qed.

(** ** Accounting of a run *)

Lemma lossy_lines_counts (file : Path) (r : ConversionRoute) :
  count_calls is_advance (lossy_lines file r) = 0
  ∧ count_calls is_converted_line (lossy_lines file r) = 0
  ∧ count_calls is_failed_line (lossy_lines file r) = 0
  ∧ count_calls is_dismiss (lossy_lines file r) = 0
  ∧ prompted (lossy_lines file r) = [].
Proof. unfold lossy_lines. destruct (lossy r); now cbn. Qed.

Lemma conversion_lines_more_counts (file output : Path) (r : ConversionRoute) :
  count_calls is_advance (conversion_lines file output r) = 0
  ∧ count_calls is_dismiss (conversion_lines file output r) = 0.
Proof. unfold conversion_lines. destruct (lossy r); now cbn. Qed.

Lemma length_prompted_app (l1 l2 : list UiCall) :
  length (prompted (l1 ++ l2)) = length (prompted l1) + length (prompted l2).
Proof. now rewrite prompted_app, length_app. Qed.

Lemma accounted_after_failure (n : nat) (file : Path) (exc : Exception)
      (pre : list UiCall) (self : ProgressScreen) :
  count_calls is_advance pre = 0 →
  count_calls is_converted_line pre = 0 →
  count_calls is_failed_line pre = 0 →
  count_calls is_dismiss pre = 0 →
  prompted pre = [] →
  accounted n self →
  accounted (S n) (after_failure file exc pre self).
Proof.
  intros Ha Hc Hf Hd Hp (H1 & H2 & H3 & H4 & H5 & H6 & H7 & H8 & H9 & H10).
  unfold accounted, after_failure. proj_simpl.
  rewrite !count_calls_app, !length_prompted_app, !count_status_app,
    !summary_of_app, ?count_calls_cons, ?count_status_cons,
    Ha, Hc, Hf, Hd, Hp, H3, H4, H5, H6, H7, H8, H9.
  cbn. split_ands; try reflexivity; try assumption; lia.
Qed.

Lemma accounted_after_conversion (n : nat) (file output : Path)
      (r : ConversionRoute) (d : Decision) (fs : FileSystem)
      (self : ProgressScreen) :
  accounted n self →
  accounted (S n) (after_conversion file output r d fs self).
Proof.
  intros (H1 & H2 & H3 & H4 & H5 & H6 & H7 & H8 & H9 & H10).
  destruct (conversion_lines_counts file output r) as (Hc1 & Hc2 & Hc3).
  destruct (conversion_lines_more_counts file output r) as (Hc4 & Hc5).
  destruct (removal_records_counts d file fs) as (Hr1 & _ & Hr3).
  unfold accounted, after_conversion. proj_simpl.
  rewrite !count_calls_app, !length_prompted_app, !count_status_app,
    !summary_of_app, ?count_calls_cons, ?count_status_cons,
    Hc1, Hc2, Hc3, Hc4, Hc5, Hr1, Hr3, H3, H4, H5, H6, H7, H8, H9.
  cbn. split_ands; try reflexivity; try assumption; lia.
Qed.

(** One iteration whose prompt, if any, is answered: the file is
    accounted for and the constants of the screen are kept. *)
Lemma process_file_accounted (w : World) (i n : nat) (file : Path)
      (self : ProgressScreen) (fs : FileSystem) :
  is_Some (pressed w i) →
  accounted n self →
  ∃ self' fs',
    process_file w i file self fs = Finished self' fs'
    ∧ accounted (S n) self'
    ∧ _target_format self' = _target_format self
    ∧ log_file (_logger self') = log_file (_logger self).
Proof.
  intros [d Hd] Hacc.
  destruct (process_file_cases w i file self fs)
    as [(exc & _ & ->)
       |[(r & exc & _ & _ & ->)
        |[(r & output & d' & _ & _ & _ & ->)
         |(r & output & _ & _ & Hnone & _)]]].
  - eexists _, _. split; [reflexivity|]. split; [|split; reflexivity].
    now apply accounted_after_failure.
  - eexists _, _. split; [reflexivity|]. split; [|split; reflexivity].
    destruct (lossy_lines_counts file r) as (? & ? & ? & ? & ?).
    now apply accounted_after_failure.
  - eexists _, _. split; [reflexivity|]. split; [|split; reflexivity].
    now apply accounted_after_conversion.
  - congruence.
Qed.

Lemma loop_accounted (w : World) (files : list Path) :
  ∀ i n self fs,
    (∀ j, j < length files → is_Some (pressed w (i + j))) →
    accounted n self →
    ∃ self' fs',
      loop w i files self fs = Finished self' fs'
      ∧ accounted (n + length files) self'
      ∧ _target_format self' = _target_format self
      ∧ log_file (_logger self') = log_file (_logger self).
Proof.
  induction files as [|file rest IH]; intros i n self fs Hans Hacc.
  - exists self, fs. rewrite Nat.add_0_r. auto.
  - cbn [loop].
    destruct (process_file_accounted w i n file self fs)
      as (self1 & fs1 & -> & Hacc1 & Ht1 & Hl1); [|exact Hacc|].
    { specialize (Hans 0). rewrite Nat.add_0_r in Hans. apply Hans. cbn. lia. }
    destruct (IH (S i) (S n) self1 fs1) as (self2 & fs2 & Hloop & Hacc2 & Ht2 & Hl2);
      [|exact Hacc1|].
    { intros j Hj. replace (S i + j) with (i + S j) by lia.
      apply Hans. cbn. lia. }
    exists self2, fs2. split; [exact Hloop|].
    cbn [length]. replace (n + S (length rest)) with (S n + length rest) by lia.
    split; [exact Hacc2|]. split; congruence.
Qed.

Lemma accounted_init (files : list Path) (target log : string) :
  accounted 0 (Driver.init files target log).
Proof. unfold accounted. cbn. split_ands; reflexivity. Qed.

(** X1. When every prompt of a batch is answered, the run finishes and
    its books balance: successes plus errors is the number of files, the
    progress bar advanced once per file, each success has its line, its
    prompt, its dismissal and its SUCCESS record, each error its line, the
    summary in the session log and the closing line of the panel show the
    two counters, and no prompt is left open. *)
Theorem run_accounts_for_every_file
        (w : World) (files : list Path) (target log : string)
        (fs : FileSystem) :
  (∀ i, i < length files → is_Some (pressed w i)) →
  ∃ self fs',
    _run_conversions w (Driver.init files target log) fs = Finished self fs'
    ∧ success (_stats self) + errors (_stats self) = length files
    ∧ count_calls is_advance (ui self) = length files
    ∧ count_calls is_converted_line (ui self) = success (_stats self)
    ∧ count_calls is_failed_line (ui self) = errors (_stats self)
    ∧ length (prompted (ui self)) = success (_stats self)
    ∧ count_calls is_dismiss (ui self) = success (_stats self)
    ∧ count_status SUCCESS (records (_logger self)) = success (_stats self)
    ∧ summary_of (records (_logger self))
      = [("success", success (_stats self)); ("skipped", 0);
         ("errors", errors (_stats self))]
    ∧ WriteLine (Done (success (_stats self)) (errors (_stats self)))
      ∈ ui self
    ∧ prompt_visible self = false.
Proof.
  intros Hans. unfold _run_conversions.
  change (_files (Driver.init files target log)) with files.
  destruct (loop_accounted w files 0 0 (Driver.init files target log) fs)
    as (self1 & fs1 & -> & Hacc & _ & _).
  { intros j Hj. now apply Hans. }
  { apply accounted_init. }
  rewrite finish_effect. eexists _, _. split; [reflexivity|].
  destruct Hacc as (H1 & H2 & H3 & H4 & H5 & H6 & H7 & H8 & H9 & H10).
  proj_simpl.
  rewrite !count_calls_app, !length_prompted_app, !count_status_app,
    !summary_of_app, ?count_calls_cons, ?count_status_cons,
    H2, H3, H4, H5, H6, H7, H8, H9.
  cbn. rewrite !Nat.add_0_r. split_ands; try reflexivity; try assumption.
  rewrite elem_of_app, !elem_of_cons. auto.
Qed.

(** ** A prompt that is never answered *)

Lemma process_file_finished_accounted (w : World) (i n : nat) (file : Path)
      (self self' : ProgressScreen) (fs fs' : FileSystem) :
  process_file w i file self fs = Finished self' fs' →
  accounted n self →
  accounted (S n) self'
  ∧ _target_format self' = _target_format self
  ∧ _files self' = _files self.
Proof.
  intros Hstep Hacc.
  destruct (process_file_cases w i file self fs)
    as [(exc & _ & H)
       |[(r & exc & _ & _ & H)
        |[(r & output & d' & _ & _ & _ & H)
         |(r & output & _ & _ & _ & H)]]];
    rewrite H in Hstep; try discriminate; injection Hstep as <- <-.
  - split; [|split; reflexivity]. now apply accounted_after_failure.
  - split; [|split; reflexivity].
    destruct (lossy_lines_counts file r) as (? & ? & ? & ? & ?).
    now apply accounted_after_failure.
  - split; [|split; reflexivity]. now apply accounted_after_conversion.
Qed.

Lemma loop_blocked (w : World) (files : list Path) :
  ∀ i n self fs self' fs',
    loop w i files self fs = Blocked self' fs' →
    accounted n self →
    ∃ j file output r before,
      files !! j = Some file
      ∧ pressed w (i + j) = None
      ∧ accounted (n + j) before
      ∧ self' = screen_at_prompt file output r before.
Proof.
  induction files as [|file rest IH]; intros i n self fs self' fs' Hloop Hacc;
    [discriminate|].
  cbn [loop] in Hloop.
  destruct (process_file w i file self fs) as [self1 fs1|self1 fs1] eqn:Hstep.
  - destruct (process_file_finished_accounted w i n file self self1 fs fs1
                Hstep Hacc) as (Hacc1 & _ & _).
    destruct (IH (S i) (S n) self1 fs1 self' fs' Hloop Hacc1)
      as (j & f & output & r & before & Hj & Hp & Hb & ->).
    exists (S j), f, output, r, before. split; [exact Hj|].
    replace (i + S j) with (S i + j) by lia.
    replace (n + S j) with (S n + j) by lia. auto.
  - injection Hloop as <- <-.
    destruct (process_file_cases w i file self fs)
      as [(exc & _ & H)
         |[(r & exc & _ & _ & H)
          |[(r & output & d' & _ & _ & _ & H)
           |(r & output & _ & _ & Hp & H)]]];
      rewrite H in Hstep; try discriminate; injection Hstep as <- <-.
    exists 0, file, output, r, self. rewrite !Nat.add_0_r. auto.
Qed.

(** X2. A run that does not finish is waiting at the prompt of a file
    that was converted and whose prompt is never answered: every earlier
    file is accounted for, the success of the waiting file is already
    counted, the prompt is the last thing shown, the bar has not advanced
    for that file, and no summary has been written. *)
Theorem blocked_run_waits_at_prompt
        (w : World) (files : list Path) (target log : string)
        (fs fs' : FileSystem) (self' : ProgressScreen) :
  _run_conversions w (Driver.init files target log) fs = Blocked self' fs' →
  ∃ j file shown,
    files !! j = Some file
    ∧ pressed w j = None
    ∧ _current_file self' = Some file
    ∧ prompt_visible self' = true
    ∧ ui self' = shown ++ [ShowKeepPrompt file]
    ∧ count_calls is_advance (ui self') = j
    ∧ success (_stats self') + errors (_stats self') = S j
    ∧ count_status SUCCESS (records (_logger self'))
      = success (_stats self') - 1
    ∧ summary_of (records (_logger self')) = [].
Proof.
  unfold _run_conversions.
  change (_files (Driver.init files target log)) with files.
  destruct (loop w 0 files (Driver.init files target log) fs)
    as [self1 fs1|self1 fs1] eqn:Hloop; [discriminate|].
  intros [= <- <-].
  destruct (loop_blocked w files 0 0 _ fs self1 fs1 Hloop
                         (accounted_init files target log))
    as (j & file & output & r & before & Hj & Hp & Hacc & ->).
  destruct Hacc as (H1 & H2 & H3 & H4 & H5 & H6 & H7 & H8 & H9 & H10).
  destruct (conversion_lines_more_counts file output r) as (Hc4 & _).
  exists j, file, (ui before ++ conversion_lines file output r).
  rewrite screen_at_prompt_effect. proj_simpl.
  split; [exact Hj|]. split; [exact Hp|].
  split; [reflexivity|]. split; [reflexivity|].
  split; [now rewrite <- app_assoc|].
  rewrite !count_calls_app, ?count_calls_cons, Hc4, H3, H8, H9. cbn.
  split_ands; try reflexivity; lia.
Qed.

(** ** The log and the panel only grow *)

Lemma process_file_extends (w : World) (i : nat) (file : Path)
      (self : ProgressScreen) (fs : FileSystem) :
  let o := process_file w i file self fs in
  records (_logger self) `prefix_of` records (_logger (screen_of o))
  ∧ ui self `prefix_of` ui (screen_of o)
  ∧ log_file (_logger (screen_of o)) = log_file (_logger self)
  ∧ _target_format (screen_of o) = _target_format self
  ∧ _files (screen_of o) = _files self.
Proof.
  cbv zeta.
  destruct (process_file_cases w i file self fs)
    as [(exc & _ & ->)
       |[(r & exc & _ & _ & ->)
        |[(r & output & d' & _ & _ & _ & ->)
         |(r & output & _ & _ & _ & ->)]]];
    cbn [screen_of]; rewrite ?screen_at_prompt_effect;
    unfold after_failure, after_conversion; proj_simpl;
    (split_ands; try reflexivity; try (eexists; reflexivity)).
Qed.



(** ** Which originals a run removes *)

Lemma unlink_keeps_others (p q : Path) (fs : FileSystem) :
  q ∈ entries fs → q ≠ p → q ∈ entries (unlink p fs).2.
Proof.
  intros Hin Hne. unfold unlink.
  destruct (bool_decide (p ∈ entries fs)); [|exact Hin].
  destruct (bool_decide (p ∈ undeletable fs)); [exact Hin|].
  cbn. apply list_elem_of_filter. auto.
Qed.

Lemma unlink_adds_nothing (p q : Path) (fs : FileSystem) :
  q ∈ entries (unlink p fs).2 → q ∈ entries fs.
Proof.
  unfold unlink.
  destruct (bool_decide (p ∈ entries fs)); [|auto].
  destruct (bool_decide (p ∈ undeletable fs)); [auto|].
  cbn. intros [_ H]%list_elem_of_filter. exact H.
Qed.

Lemma disk_after_removed (d : Decision) (file q : Path) (fs : FileSystem) :
  q ∈ entries fs → q ∉ entries (disk_after d file fs) →
  q = file ∧ d = DeleteOriginal.
Proof.
  intros Hin Hout. destruct d; cbn in Hout; [contradiction|].
  split; [|reflexivity]. destruct (decide (q = file)) as [|Hne]; [assumption|].
  destruct Hout. now apply unlink_keeps_others.
Qed.

Lemma loop_removes_only_on_request (w : World) (files : list Path) :
  ∀ i self fs q,
    q ∈ entries fs →
    q ∉ entries (disk_of (loop w i files self fs)) →
    ∃ j r output,
      files !! j = Some q
      ∧ pressed w (i + j) = Some DeleteOriginal
      ∧ get_route registry (ext_of q) (_target_format self) = Return r
      ∧ convert w (i + j) (converter_class r) q (_target_format self)
        = Return output.
Proof.
  induction files as [|file rest IH]; intros i self fs q Hin Hout.
  - cbn in Hout. contradiction.
  - cbn [loop] in Hout.
    pose proof (process_file_extends w i file self fs) as Hext.
    cbv zeta in Hext. destruct Hext as (_ & _ & _ & Htarget & _).
    destruct (process_file_cases w i file self fs)
      as [(exc & _ & Hstep)
         |[(r & exc & _ & _ & Hstep)
          |[(r & output & d & Hr & Hc & Hp & Hstep)
           |(r & output & _ & _ & _ & Hstep)]]];
      rewrite Hstep in Hout, Htarget; cbn [screen_of] in Htarget.
    + destruct (IH (S i) _ fs q Hin Hout) as (j & r & output & Hj & Hp & Hr & Hc).
      exists (S j), r, output. replace (i + S j) with (S i + j) by lia.
      rewrite Htarget in Hr, Hc. auto.
    + destruct (IH (S i) _ fs q Hin Hout) as (j & r' & output & Hj & Hp & Hr & Hc).
      exists (S j), r', output. replace (i + S j) with (S i + j) by lia.
      rewrite Htarget in Hr, Hc. auto.
    + destruct (decide (q ∈ entries (disk_after d file fs))) as [Hin1|Hout1].
      * destruct (IH (S i) _ _ q Hin1 Hout)
          as (j & r' & output' & Hj & Hp' & Hr' & Hc').
        exists (S j), r', output'. replace (i + S j) with (S i + j) by lia.
        rewrite Htarget in Hr', Hc'. auto.
      * destruct (disk_after_removed d file q fs Hin Hout1) as [-> ->].
        exists 0, r, output. rewrite Nat.add_0_r. auto.
    + cbn in Hout. contradiction.
Qed.

(** X4. A run removes an original only on request: a file that was on
    disk before the run and is not after it is a file of the batch that
    had a route, was converted by the codec, and at whose prompt the user
    pressed "delete". In particular the original of a file that failed to
    convert is never removed, and neither is a file outside the batch. *)
Theorem run_removes_only_on_request
        (w : World) (self : ProgressScreen) (fs : FileSystem) (q : Path) :
  q ∈ entries fs →
  q ∉ entries (disk_of (_run_conversions w self fs)) →
  ∃ j r output,
    _files self !! j = Some q
    ∧ pressed w j = Some DeleteOriginal
    ∧ get_route registry (ext_of q) (_target_format self) = Return r
    ∧ convert w j (converter_class r) q (_target_format self) = Return output.
Proof.
  intros Hin Hout.
  apply (loop_removes_only_on_request w (_files self) 0 self fs q Hin).
  unfold _run_conversions in Hout.
  now destruct (loop w 0 (_files self) self fs).
Qed.

(** The loop never adds an entry to the file system: the entries after it
    are among the entries before it. *)
Lemma loop_disk_shrinks (w : World) (files : list Path) :
  ∀ i self fs q,
    q ∈ entries (disk_of (loop w i files self fs)) → q ∈ entries fs.
Proof.
  induction files as [|file rest IH]; intros i self fs q Hq; [exact Hq|].
  cbn [loop] in Hq.
  destruct (process_file_cases w i file self fs)
    as [(exc & _ & Hstep)
       |[(r & exc & _ & _ & Hstep)
        |[(r & output & d & Hr & Hc & Hp & Hstep)
         |(r & output & _ & _ & _ & Hstep)]]];
    rewrite Hstep in Hq; try (exact (IH _ _ _ _ Hq)); [|exact Hq].
  apply IH in Hq. destruct d; [exact Hq|]. now apply unlink_adds_nothing in Hq.
Qed.

(** ** More on the registry *)

(** X6. [is_valid] is the success of [get_route]: it is true exactly
    when [get_route] returns a route for the same arguments, and false
    exactly when [get_route] raises. *)
Theorem is_valid_iff_get_route_returns
        (self : ConversionRegistry) (s t : string) :
  is_valid self s t = is_return (get_route self s t)
  ∧ (is_valid self s t = true ↔ ∃ r, get_route self s t = Return r)
  ∧ (is_valid self s t = false ↔ ∃ e, get_route self s t = Raise e).
Proof.
  assert (is_valid self s t = is_return (get_route self s t)) as H.
  { unfold is_valid, get_route.
    destruct (self !! (lower s, lower t)) as [r|] eqn:E.
    - apply bool_decide_eq_true. eauto.
    - rewrite bool_decide_eq_false_2 by (intros [? ?]; discriminate).
      destruct (EXTENSION_MEDIA_TYPE !! lower s),
        (EXTENSION_MEDIA_TYPE !! lower t); try case_bool_decide; reflexivity. }
  split; [exact H|]. rewrite H.
  destruct (get_route self s t) as [r|e]; cbn; split; split;
    try discriminate; eauto; intros [? ?]; discriminate.
Qed.

(** X7. [register] overwrites and touches nothing else: a second route
    for the same pair (in any case) replaces the first, every other pair
    resolves as before, and the registry grows by one exactly when the
    pair was not valid before. *)
Theorem register_overwrites_same_pair_only
        (self : ConversionRegistry) (a b : ConversionRoute) (s t : string) :
  (key_of a = key_of b → register (register self a) b = register self b)
  ∧ ((lower s, lower t) ≠ key_of a →
     get_route (register self a) s t = get_route self s t
     ∧ is_valid (register self a) s t = is_valid self s t)
  ∧ size (register self a)
    = (if is_valid self (source_format a) (target_format a)
       then size self else S (size self)).
Proof.
  unfold register, key_of. split_ands.
  - intros [= -> ->]. apply insert_insert_eq.
  - intros Hne. unfold get_route, is_valid.
    rewrite lookup_insert_ne by congruence. auto.
  - unfold is_valid.
    destruct (self !! (lower (source_format a), lower (target_format a)))
      as [r|] eqn:E.
    + rewrite bool_decide_eq_true_2 by eauto.
      rewrite <- (insert_delete_id self _ r E) at 2.
      rewrite <- insert_delete_eq.
      rewrite !map_size_insert_None by apply lookup_delete_eq. reflexivity.
    + rewrite bool_decide_eq_false_2 by (intros [? ?]; discriminate).
      now apply map_size_insert_None.
Qed.

Lemma by_register_keys (self : ConversionRegistry) :
  by_register self →
  ∀ k r, self !! k = Some r → k = key_of r.
Proof.
  induction 1 as [|self route _ IH]; intros k r Hk.
  - unfold Registry.init in Hk. now rewrite lookup_empty in Hk.
  - unfold register in Hk. fold (key_of route) in Hk.
    destruct (decide (key_of route = k)) as [<-|Hne].
    + rewrite lookup_insert_eq in Hk. congruence.
    + rewrite lookup_insert_ne in Hk by exact Hne. now apply IH.
Qed.

(** X8. In a registry built by [register] alone, every route is filed
    under its own lowercased pair, so keys are lowercase; [get_route]
    then returns a route for the pair that was asked for, the valid
    targets are lowercase, and a target in any case is valid exactly when
    its lowercase form is among the valid targets. *)
Theorem built_registry_routes_match_keys
        (self : ConversionRegistry) (s t : string) :
  by_register self →
  (∀ r, get_route self s t = Return r →
        lower (source_format r) = lower s ∧ lower (target_format r) = lower t)
  ∧ (∀ x, x ∈ get_valid_targets self s → lower x = x)
  ∧ (lower t ∈ get_valid_targets self s ↔ is_valid self s t = true).
Proof.
  intros Hbuilt. split_ands.
  - intros r Hr%get_route_return.
    apply (by_register_keys self Hbuilt) in Hr. now injection Hr as -> ->.
  - intros x [r Hr]%elem_of_get_valid_targets.
    apply (by_register_keys self Hbuilt) in Hr. injection Hr as _ ->.
    apply lower_idemp.
  - rewrite elem_of_get_valid_targets, is_valid_true. reflexivity.
Qed.

(** X9. After [register], the valid targets of a source are those from
    before together with the lowercased target of the new route, when the
    new route is for that source. *)
Theorem valid_targets_after_register
        (self : ConversionRegistry) (a : ConversionRoute) (s x : string) :
  x ∈ get_valid_targets (register self a) s
  ↔ (lower s = lower (source_format a) ∧ x = lower (target_format a))
    ∨ x ∈ get_valid_targets self s.
Proof.
  rewrite !elem_of_get_valid_targets. unfold register.
  destruct (decide ((lower (source_format a), lower (target_format a))
                    = (lower s, x))) as [E|Hne].
  - rewrite E, lookup_insert_eq. injection E as E1 E2.
    split; [intros _; left; auto|eauto].
  - rewrite lookup_insert_ne by exact Hne.
    split; [auto|]. intros [[E1 E2]|H]; [|exact H].
    destruct Hne. congruence.
Qed.

(** X10. Every route of the default registry is well dispatched: its two
    formats are in the catalog, in the same media domain, its converter
    class is the converter of that domain, and its source and target
    differ; and the default registry is built by [register] alone. *)
Theorem default_routes_well_dispatched :
  (∀ k r, registry !! k = Some r →
          ∃ d, get_media_type (source_format r) = Some d
               ∧ get_media_type (target_format r) = Some d
               ∧ converter_class r = converter_of d
               ∧ source_format r ≠ target_format r)
  ∧ by_register registry.
Proof.
  split.
  - intros k r Hr%elem_of_map_to_list%list_elem_of_In.
    assert (forallb (λ kr : string * string * ConversionRoute,
                       well_dispatched kr.2)
                    (map_to_list registry) = true) as Hall
        by (vm_compute; reflexivity).
    rewrite forallb_forall in Hall. specialize (Hall _ Hr). cbn in Hall.
    unfold well_dispatched in Hall.
    destruct (get_media_type (source_format r)) as [d1|]; [|discriminate].
    destruct (get_media_type (target_format r)) as [d2|]; [|discriminate].
    apply andb_true_iff in Hall as [Hall Hne].
    apply andb_true_iff in Hall as [Hd Hc].
    apply bool_decide_eq_true in Hd, Hc. subst d2.
    exists d1. split_ands; try reflexivity; try exact Hc.
    intros E. rewrite E, String.eqb_refl in Hne. discriminate.
  - unfold registry, build_default_registry, register_all,
      image_routes, video_routes, audio_routes, document_routes.
    cbn [foldl]. repeat apply by_register_step. apply by_register_init.
Qed.

(** ** Strings and paths *)

Lemma append_cons (c : ascii) (a b : string) :
  String c a +:+ b = String c (a +:+ b).
Proof. reflexivity. Qed.

Lemma append_nil_l (b : string) : "" +:+ b = b.
Proof. reflexivity. Qed.

Lemma append_nil_r (a : string) : a +:+ "" = a.
Proof.
  induction a as [|c a IH]; rewrite ?append_cons, ?append_nil_l;
    [reflexivity|].
  now rewrite IH.
Qed.

Lemma length_append (a b : string) :
  String.length (a +:+ b) = String.length a + String.length b.
Proof.
  induction a as [|c a IH]; rewrite ?append_cons, ?append_nil_l; cbn;
    [reflexivity|].
  now rewrite IH.
Qed.

Lemma append_assoc (a b c : string) : (a +:+ b) +:+ c = a +:+ (b +:+ c).
Proof.
  induction a as [|x a IH]; rewrite ?append_cons, ?append_nil_l;
    [reflexivity|].
  now rewrite IH.
Qed.

Lemma substring_all (s : string) : substring 0 (String.length s) s = s.
Proof. induction s as [|c s IH]; cbn; [reflexivity|]. now rewrite IH. Qed.

Lemma substring_take_app (a b : string) :
  substring 0 (String.length a) (a +:+ b) = a.
Proof.
  induction a as [|c a IH]; rewrite ?append_cons, ?append_nil_l; cbn;
    [now destruct b|].
  now rewrite IH.
Qed.

Lemma substring_drop_app (a b : string) :
  substring (String.length a) (String.length b) (a +:+ b) = b.
Proof.
  induction a as [|c a IH]; rewrite ?append_cons, ?append_nil_l; cbn;
    [apply substring_all|exact IH].
Qed.

Lemma length_substring (s : string) :
  ∀ i m, (i + m ≤ String.length s)%nat →
         String.length (substring i m s) = m.
Proof.
  induction s as [|c s IH]; intros i m H; cbn in H.
  - assert (i = 0 ∧ m = 0) as [-> ->] by lia. reflexivity.
  - destruct i as [|i]; cbn.
    + destruct m as [|m]; cbn; [reflexivity|]. rewrite IH by lia. reflexivity.
    + apply IH. lia.
Qed.

Lemma substring_split (s : string) :
  ∀ i, (i ≤ String.length s)%nat →
       substring 0 i s +:+ substring i (String.length s - i) s = s.
Proof.
  induction s as [|c s IH]; intros i H; cbn in H.
  - assert (i = 0) as -> by lia. reflexivity.
  - destruct i as [|i]; cbn; rewrite ?append_cons, ?append_nil_l.
    + now rewrite substring_all.
    + rewrite IH by lia. reflexivity.
Qed.

Lemma rfind_dot_lt (s : string) (i : nat) :
  rfind_dot s = Some i → (i < String.length s)%nat.
Proof.
  revert i. induction s as [|c s IH]; intros i H; cbn in H; [discriminate|].
  destruct (rfind_dot s) as [j|].
  - injection H as <-. specialize (IH j eq_refl). cbn. lia.
  - destruct (Ascii.eqb c "."); [|discriminate]. injection H as <-. cbn. lia.
Qed.

Lemma rfind_dot_plain (e : string) : no_dot_no_sep e = true → rfind_dot e = None.
Proof.
  induction e as [|c e IH]; cbn; [reflexivity|]. intros H.
  apply andb_true_iff in H as [H He]. apply andb_true_iff in H as [Hc _].
  rewrite (IH He). now destruct (Ascii.eqb c ".").
Qed.

Lemma rfind_dot_app (a e : string) :
  no_dot_no_sep e = true →
  rfind_dot (a +:+ String "." e) = Some (String.length a).
Proof.
  intros He.
  induction a as [|c a IH]; rewrite ?append_cons, ?append_nil_l; cbn.
  - rewrite (rfind_dot_plain e He). reflexivity.
  - now rewrite IH.
Qed.

Lemma is_empty_true (s : string) : is_empty s = true ↔ s = "".
Proof. destruct s; cbn; split; congruence. Qed.

Lemma is_empty_false (s : string) : is_empty s = false ↔ s ≠ "".
Proof. destruct s; cbn; split; congruence. Qed.

Lemma length_pos (s : string) : s ≠ "" ↔ (0 < String.length s)%nat.
Proof. destruct s; cbn; split; try congruence; lia. Qed.

(** A name is its stem followed by its suffix, and the stem of a name
    that is not empty is not empty. *)
Lemma name_stem_suffix (p : Path) :
  name p ≠ "" →
  ∃ stem,
    stem ≠ ""
    ∧ name p = stem +:+ suffix p
    ∧ (if is_empty (suffix p) then name p
       else substring 0 (String.length (name p) - String.length (suffix p))
                      (name p)) = stem.
Proof.
  intros Hname. unfold suffix.
  destruct (rfind_dot (name p)) as [i|] eqn:Hi.
  - pose proof (rfind_dot_lt _ _ Hi) as Hlt.
    destruct ((0 <? i) && (i <? String.length (name p) - 1))%nat eqn:Hc.
    + apply andb_true_iff in Hc as [H0 H1].
      apply Nat.ltb_lt in H0, H1.
      assert (String.length
                (substring i (String.length (name p) - i) (name p))
              = String.length (name p) - i) as Hlen
          by (apply length_substring; lia).
      exists (substring 0 i (name p)).
      split; [|split].
      * apply length_pos. rewrite length_substring by lia. exact H0.
      * symmetry. apply substring_split. lia.
      * destruct (is_empty _) eqn:He.
        -- apply is_empty_true in He. rewrite He in Hlen. cbn in Hlen. lia.
        -- rewrite Hlen. f_equal. lia.
    + exists (name p). cbn. split; [exact Hname|].
      split; [|reflexivity]. symmetry. apply append_nil_r.
  - exists (name p). cbn. split; [exact Hname|].
    split; [|reflexivity]. symmetry. apply append_nil_r.
Qed.

Lemma plain_extension_facts (e : string) :
  plain_extension e = true →
  e ≠ "" ∧ no_dot_no_sep e = true ∧ contains_sep e = false
  ∧ lstrip_dot e = e.
Proof.
  unfold plain_extension. intros [He Hp]%andb_true_iff.
  apply negb_true_iff, is_empty_false in He.
  split; [exact He|]. split; [exact Hp|]. split.
  - clear He. induction e as [|c e IH]; cbn in *; [reflexivity|].
    apply andb_true_iff in Hp as [Hp He]. apply andb_true_iff in Hp as [_ Hc].
    apply negb_true_iff in Hc. now rewrite Hc, IH.
  - destruct e as [|c e]; [reflexivity|]. cbn in Hp.
    apply andb_true_iff in Hp as [Hp _]. apply andb_true_iff in Hp as [Hc _].
    apply negb_true_iff in Hc. cbn.
    destruct c as [[] [] [] [] [] [] [] []]; try reflexivity; discriminate.
Qed.

Lemma suffix_of_stem_ext (d stem e : string) :
  stem ≠ "" → plain_extension e = true →
  suffix (mkPath d (stem +:+ "." +:+ e)) = "." +:+ e.
Proof.
  intros Hstem He. destruct (plain_extension_facts e He) as (Hne & Hp & _ & _).
  change ("." +:+ e) with (String "." e).
  unfold suffix. cbn [name]. rewrite (rfind_dot_app stem e Hp).
  apply length_pos in Hstem. apply length_pos in Hne.
  rewrite !length_append. cbn [String.length].
  assert (((0 <? String.length stem)
           && (String.length stem
               <? String.length stem + S (String.length e) - 1))%nat = true)
    as ->.
  { apply andb_true_iff. split; apply Nat.ltb_lt; lia. }
  replace (String.length stem + S (String.length e) - String.length stem)
    with (String.length (String "." e)) by (cbn; lia).
  apply substring_drop_app.
Qed.

(** [with_suffix] for a dot followed by a plain extension: the stem of
    the name, then the new suffix. *)
Lemma get_output_path_closed_form (p : Path) (stem target : string) :
  plain_extension (lower target) = true →
  name p ≠ "" →
  (if is_empty (suffix p) then name p
   else substring 0 (String.length (name p) - String.length (suffix p))
                  (name p)) = stem →
  get_output_path p target
  = Return (mkPath (parent p) (stem +:+ "." +:+ lower target)).
Proof.
  intros He Hp Hcut.
  destruct (plain_extension_facts _ He) as (Hne & _ & Hsep & _).
  unfold get_output_path.
  change ("." +:+ lower target) with (String "." (lower target)).
  assert (contains_sep (String "." (lower target)) = false) as H1
      by exact Hsep.
  assert ((negb (is_empty (String "." (lower target)))
           && negb (starts_with_dot (String "." (lower target)))
           || String.eqb (String "." (lower target)) ".") = false) as H2.
  { apply orb_false_iff. split; [reflexivity|].
    apply String.eqb_neq. intros [= E]. contradiction. }
  unfold with_suffix. rewrite H1, H2.
  apply is_empty_false in Hp. rewrite Hp.
  cbv zeta. rewrite <- Hcut. now destruct (is_empty (suffix p)).
Qed.

Lemma ext_of_stem_ext (d stem target : string) :
  stem ≠ "" → plain_extension (lower target) = true →
  ext_of (mkPath d (stem +:+ "." +:+ lower target)) = lower target.
Proof.
  intros Hstem He.
  destruct (plain_extension_facts _ He) as (_ & _ & _ & Hstrip).
  unfold ext_of. rewrite (suffix_of_stem_ext d stem _ Hstem He).
  change (lstrip_dot ("." +:+ lower target)) with (lstrip_dot (lower target)).
  rewrite Hstrip. apply lower_idemp.
Qed.

(** X11. [get_output_path] puts the output next to the source: for a
    source with a name and a target that is a plain extension, it returns
    the path in the same directory whose name is the stem of the source
    followed by a dot and the lowercased target. The extension of that
    path, as the driver reads it, is the lowercased target, and asking
    again for the same target from the output gives the output itself. *)
Theorem get_output_path_next_to_source (source : Path) (target : string) :
  name source ≠ "" →
  plain_extension (lower target) = true →
  ∃ stem,
    stem ≠ ""
    ∧ name source = stem +:+ suffix source
    ∧ get_output_path source target
      = Return (mkPath (parent source) (stem +:+ "." +:+ lower target))
    ∧ ext_of (mkPath (parent source) (stem +:+ "." +:+ lower target))
      = lower target
    ∧ get_output_path (mkPath (parent source) (stem +:+ "." +:+ lower target))
                      target
      = Return (mkPath (parent source) (stem +:+ "." +:+ lower target)).
Proof.
  intros Hname He.
  destruct (name_stem_suffix source Hname) as (stem & Hstem & Hsplit & Hcut).
  exists stem. split; [exact Hstem|]. split; [exact Hsplit|].
  split; [exact (get_output_path_closed_form source stem target He Hname Hcut)|].
  split; [exact (ext_of_stem_ext (parent source) stem target Hstem He)|].
  apply (get_output_path_closed_form
           (mkPath (parent source) (stem +:+ "." +:+ lower target)) stem target
           He).
  - cbn [name]. apply length_pos. rewrite length_append.
    change ("." +:+ lower target) with (String "." (lower target)).
    cbn. lia.
  - rewrite (suffix_of_stem_ext (parent source) stem _ Hstem He).
    change ("." +:+ lower target) with (String "." (lower target)).
    cbn [is_empty name]. rewrite length_append.
    replace (String.length stem + String.length (String "." (lower target))
             - String.length (String "." (lower target)))
      with (String.length stem) by lia.
    apply substring_take_app.
Qed.

(** ** The converters *)

Lemma lower_char_dot (c : ascii) :
  Ascii.eqb (lower_char c) "." = Ascii.eqb c ".".
Proof. destruct c as [[] [] [] [] [] [] [] []]; vm_compute; reflexivity. Qed.

Lemma lstrip_dot_cons (c : ascii) (s : string) :
  lstrip_dot (String c s) = if Ascii.eqb c "." then lstrip_dot s else String c s.
Proof. destruct c as [[] [] [] [] [] [] [] []]; reflexivity. Qed.

(** Stripping the dots and lowercasing commute, so the document converter
    and the driver read the same extension off a path. *)
Lemma lstrip_dot_lower (s : string) :
  lstrip_dot (lower s) = lower (lstrip_dot s).
Proof.
  induction s as [|c s IH]; [reflexivity|].
  cbn [lower]. rewrite !lstrip_dot_cons, lower_char_dot.
  destruct (Ascii.eqb c "."); [exact IH|reflexivity].
Qed.

Lemma get_output_path_lower (source : Path) (target : string) :
  get_output_path source (lower target) = get_output_path source target.
Proof. unfold get_output_path. now rewrite lower_idemp. Qed.

Lemma converters_target_txt (route : string * string) (h : DocumentHandler) :
  converters !! route = Some h → route.2 = "txt".
Proof.
  intros H%elem_of_map_to_list%list_elem_of_In.
  assert (forallb (λ kh : string * string * DocumentHandler,
                     String.eqb kh.1.2 "txt")
                  (map_to_list converters) = true) as Hall
      by (vm_compute; reflexivity).
  rewrite forallb_forall in Hall. specialize (Hall _ H).
  now apply String.eqb_eq in Hall.
Qed.

(** X12. Whatever the libraries do, a converter that returns, returns
    the path [get_output_path] computes from the source and the target:
    the output is never placed anywhere else, for any of the four
    converter classes. *)
Theorem converters_return_output_path
        (env : Codecs) (cls : ConverterClass) (source out : Path)
        (target : string) :
  convert_with env cls source target = Return out →
  get_output_path source target = Return out.
Proof.
  destruct cls; cbn [convert_with].
  - unfold ImageConverter_convert. cbv zeta.
    destruct (_PILLOW_FORMATS !! lower target) as [pf|]; [|discriminate].
    rewrite get_output_path_lower.
    destruct (get_output_path source target) as [o|]; [|discriminate].
    destruct (image_open env source) as [img|]; [|discriminate].
    destruct (prepare env pf img) as [img'|]; [|discriminate].
    destruct (image_save env img' o pf); [discriminate|]. congruence.
  - unfold VideoConverter_convert. rewrite get_output_path_lower.
    destruct (get_output_path source target) as [o|]; [|discriminate].
    destruct (ffmpeg_run env source o); [discriminate|]. congruence.
  - unfold AudioConverter_convert. cbv zeta.
    destruct (bool_decide _); [|discriminate].
    rewrite get_output_path_lower.
    destruct (get_output_path source target) as [o|]; [|discriminate].
    destruct (ffmpeg_run env source o); [discriminate|]. congruence.
  - unfold DocumentConverter_convert. cbv zeta.
    destruct (converters !! _) as [h|] eqn:Hh; [|discriminate].
    apply converters_target_txt in Hh. cbn [snd] in Hh.
    assert (get_output_path source "txt" = get_output_path source target)
      as Ho by (unfold get_output_path; now rewrite Hh).
    destruct h; unfold _pdf_to_txt, _docx_to_txt; rewrite Ho;
      destruct (get_output_path source target) as [o|]; try discriminate.
    + destruct (pdf_pages env source); [|discriminate].
      destruct (write_text env o _); [discriminate|]. congruence.
    + destruct (docx_paragraphs env source); [|discriminate].
      destruct (write_text env o _); [discriminate|]. congruence.
Qed.

(** X13. A JPEG is never saved with an alpha or palette mode: when the
    image converter returns, the image it handed to [save] has a mode
    other than RGBA, P and LA if the target is "jpg" or "jpeg", given
    that [img.convert("RGB")] yields an RGB image; for every other
    target, and for a source that is not in one of these modes, the
    image that is saved is the image that was opened. *)
Theorem jpeg_saved_without_alpha
        (env : Codecs) (source out : Path) (target : string) :
  (∀ i i', image_convert env i "RGB" = Return i' →
           image_mode env i' = "RGB") →
  ImageConverter_convert env source target = Return out →
  ∃ pillow_format opened saved,
    _PILLOW_FORMATS !! lower target = Some pillow_format
    ∧ image_open env source = Return opened
    ∧ image_save env saved out pillow_format = None
    ∧ (pillow_format = "JPEG" → image_mode env saved ∉ flattened_modes)
    ∧ (pillow_format ≠ "JPEG" ∨ image_mode env opened ∉ flattened_modes →
       saved = opened).
Proof.
  intros Hrgb. unfold ImageConverter_convert. cbv zeta.
  destruct (_PILLOW_FORMATS !! lower target) as [pf|]; [|discriminate].
  destruct (get_output_path source (lower target)) as [o|]; [|discriminate].
  destruct (image_open env source) as [img|]; [|discriminate].
  destruct (prepare env pf img) as [img'|] eqn:Hprep; [|discriminate].
  destruct (image_save env img' o pf) eqn:Hsave; [discriminate|].
  intros [= <-]. exists pf, img, img'.
  split; [reflexivity|]. split; [reflexivity|]. split; [exact Hsave|].
  unfold prepare in Hprep.
  destruct (String.eqb pf "JPEG") eqn:Hpf;
    destruct (bool_decide (image_mode env img ∈ flattened_modes)) eqn:Hmode;
    cbn [andb] in Hprep.
  - split.
    + intros _. rewrite (Hrgb _ _ Hprep). unfold flattened_modes.
      rewrite !elem_of_cons, elem_of_nil. intros [E|[E|[E|[]]]]; discriminate.
    + apply String.eqb_eq in Hpf. apply bool_decide_eq_true in Hmode.
      intros [H|H]; contradiction.
  - injection Hprep as <-. apply bool_decide_eq_false in Hmode. auto.
  - injection Hprep as <-. apply String.eqb_neq in Hpf. split; [|auto].
    intros E. contradiction.
  - injection Hprep as <-. apply String.eqb_neq in Hpf. split; [|auto].
    intros E. contradiction.
Qed.

Lemma registry_entries_accepted (k : string * string) (r : ConversionRoute) :
  registry !! k = Some r → accepted_by_converter (k, r) = true ∧ k.1 ≠ k.2.
Proof.
  intros H%elem_of_map_to_list%list_elem_of_In.
  assert (forallb (λ kr : string * string * ConversionRoute,
                     accepted_by_converter kr
                     && negb (String.eqb kr.1.1 kr.1.2))
                  (map_to_list registry) = true) as Hall
      by (vm_compute; reflexivity).
  rewrite forallb_forall in Hall. specialize (Hall _ H).
  apply andb_true_iff in Hall as [Ha Hne]. split; [exact Ha|].
  apply negb_true_iff, String.eqb_neq in Hne. exact Hne.
Qed.

(** A file with a default route, converted with libraries that do not
    fail. *)
Lemma routed_file_converts
      (env : Codecs) (file : Path) (target : string) (r : ConversionRoute) :
  all_succeed env →
  name file ≠ "" →
  get_route registry (ext_of file) target = Return r →
  ∃ stem,
    stem ≠ ""
    ∧ plain_extension (lower target) = true
    ∧ ext_of file ≠ lower target
    ∧ convert_with env (converter_class r) file target
      = Return (mkPath (parent file) (stem +:+ "." +:+ lower target)).
Proof.
  intros (Hopen & Hconv & Hsave & Hff & Hpdf & Hdocx & Hwrite) Hname
         Hr%get_route_return.
  assert (lower (ext_of file) = ext_of file) as Hext
      by (unfold ext_of; apply lower_idemp).
  rewrite Hext in Hr.
  destruct (registry_entries_accepted _ r Hr) as [Hacc Hne].
  cbn [fst snd] in Hne. unfold accepted_by_converter in Hacc.
  cbn [fst snd] in Hacc. apply andb_true_iff in Hacc as [Hplain Hcls].
  destruct (name_stem_suffix file Hname) as (stem & Hstem & _ & Hcut).
  pose proof (get_output_path_closed_form file stem target Hplain Hname Hcut)
    as Hout.
  exists stem. split; [exact Hstem|]. split; [exact Hplain|].
  split; [exact Hne|].
  destruct (converter_class r); cbn [convert_with].
  - apply bool_decide_eq_true in Hcls as [pf Hpf].
    unfold ImageConverter_convert. cbv zeta.
    rewrite Hpf, get_output_path_lower, Hout.
    destruct (Hopen file) as [img ->].
    assert (∃ img', prepare env pf img = Return img') as [img' ->].
    { unfold prepare. destruct (_ && _); [apply Hconv|eauto]. }
    now rewrite Hsave.
  - unfold VideoConverter_convert.
    now rewrite get_output_path_lower, Hout, Hff.
  - unfold AudioConverter_convert. cbv zeta.
    now rewrite Hcls, get_output_path_lower, Hout, Hff.
  - apply bool_decide_eq_true in Hcls as [h Hh].
    unfold DocumentConverter_convert. cbv zeta.
    rewrite lstrip_dot_lower. fold (ext_of file). rewrite Hh.
    pose proof (converters_target_txt _ h Hh) as Htxt. cbn [snd] in Htxt.
    assert (get_output_path file "txt" = get_output_path file target)
      as Ho by (unfold get_output_path; now rewrite Htxt).
    destruct h; unfold _pdf_to_txt, _docx_to_txt; rewrite Ho, Hout.
    + destruct (Hpdf file) as [l ->]. now rewrite Hwrite.
    + destruct (Hdocx file) as [l ->]. now rewrite Hwrite.
Qed.

(** X14. The converters are in step with the default registry: for a
    file with a name whose extension and target resolve to a default
    route, the converter class of the route accepts the pair, so that
    with libraries that do not fail the conversion returns; the output is
    in the directory of the source, has the target as its extension, and
    is never the source file itself. *)
Theorem default_routes_accepted_by_converters
        (env : Codecs) (file : Path) (target : string) (r : ConversionRoute) :
  all_succeed env →
  name file ≠ "" →
  get_route registry (ext_of file) target = Return r →
  ∃ out,
    convert_with env (converter_class r) file target = Return out
    ∧ parent out = parent file
    ∧ ext_of out = lower target
    ∧ out ≠ file.
Proof.
  intros Henv Hname Hr.
  destruct (routed_file_converts env file target r Henv Hname Hr)
    as (stem & Hstem & Hplain & Hne & Hconv).
  exists (mkPath (parent file) (stem +:+ "." +:+ lower target)).
  pose proof (ext_of_stem_ext (parent file) stem target Hstem Hplain) as Hoext.
  split; [exact Hconv|]. split; [reflexivity|]. split; [exact Hoext|].
  intros E. apply Hne. rewrite <- Hoext, E. reflexivity.
Qed.

(** ** The driver with the converters of the repository *)

Lemma loop_routed_no_error (env : Codecs) (buttons : nat → option Decision)
      (files : list Path) :
  all_succeed env →
  ∀ i self fs,
    (∀ f, f ∈ files →
          name f ≠ ""
          ∧ is_valid registry (ext_of f) (_target_format self) = true) →
    errors (_stats (screen_of (loop (world_of env buttons) i files self fs)))
    = errors (_stats self).
Proof.
  intros Henv. induction files as [|file rest IH]; intros i self fs Hfiles;
    [reflexivity|].
  cbn [loop].
  destruct (Hfiles file) as [Hname Hvalid]; [apply elem_of_cons; auto|].
  apply is_valid_true in Hvalid as [r Hr%get_route_registered].
  destruct (routed_file_converts env file _ r Henv Hname Hr)
    as (stem & _ & _ & _ & Hconv).
  pose proof (process_file_extends (world_of env buttons) i file self fs)
    as Hext. cbv zeta in Hext. destruct Hext as (_ & _ & _ & Htarget & _).
  destruct (process_file_cases (world_of env buttons) i file self fs)
    as [(exc & Hr' & _)
       |[(r' & exc & Hr' & Hc' & _)
        |[(r' & output & d & _ & _ & _ & Hstep)
         |(r' & output & _ & _ & _ & Hstep)]]].
  - congruence.
  - rewrite Hr in Hr'. injection Hr' as <-. cbn [world_of convert] in Hc'.
    congruence.
  - rewrite Hstep in Htarget |- *. cbn [screen_of] in Htarget.
    rewrite IH.
    + reflexivity.
    + intros f Hf. rewrite Htarget. apply Hfiles, elem_of_cons. auto.
  - rewrite Hstep. cbn [screen_of]. now rewrite screen_at_prompt_effect.
Qed.

(** X15. With the converters of the repository and libraries that do not
    fail, a batch in which every file has a name and a valid route to the
    target, and every prompt is answered, converts completely: the run
    finishes, no error is counted or shown, and the number of successes
    is the number of files. *)
Theorem routed_batch_converts_completely
        (env : Codecs) (buttons : nat → option Decision)
        (files : list Path) (target log : string) (fs : FileSystem) :
  all_succeed env →
  (∀ f, f ∈ files →
        name f ≠ "" ∧ is_valid registry (ext_of f) target = true) →
  (∀ i, i < length files → is_Some (buttons i)) →
  ∃ self fs',
    _run_conversions (world_of env buttons) (Driver.init files target log) fs
    = Finished self fs'
    ∧ errors (_stats self) = 0
    ∧ success (_stats self) = length files
    ∧ count_calls is_failed_line (ui self) = 0
    ∧ count_calls is_converted_line (ui self) = length files.
Proof.
  intros Henv Hfiles Hans. unfold _run_conversions.
  change (_files (Driver.init files target log)) with files.
  pose proof (loop_routed_no_error env buttons files Henv 0
                (Driver.init files target log) fs Hfiles) as Herr.
  destruct (loop_accounted (world_of env buttons) files 0 0
                           (Driver.init files target log) fs)
    as (self1 & fs1 & Hloop & Hacc & _ & _).
  { intros j Hj. now apply Hans. }
  { apply accounted_init. }
  rewrite Hloop in Herr |- *. cbn [screen_of] in Herr.
  change (errors (_stats (Driver.init files target log))) with 0 in Herr.
  destruct Hacc as (H1 & _ & _ & H4 & H5 & _).
  rewrite finish_effect. eexists _, _. split; [reflexivity|]. proj_simpl.
  rewrite !count_calls_app, ?count_calls_cons, H4, H5, Herr in *.
  cbn. split_ands; lia.
Qed.

(** ** The selector and the main screen *)

(** The keys of the default registry: lowercase, in the catalog, both in
    one domain, with a target that is not empty. *)
Lemma registry_key_domains (k : string * string) (r : ConversionRoute) :
  registry !! k = Some r →
  lower k.1 = k.1 ∧ lower k.2 = k.2 ∧ is_empty k.2 = false
  ∧ ∃ d, EXTENSION_MEDIA_TYPE !! k.1 = Some d
         ∧ EXTENSION_MEDIA_TYPE !! k.2 = Some d.
Proof.
  intros H%elem_of_map_to_list%list_elem_of_In.
  assert (forallb (λ kr : string * string * ConversionRoute,
                     String.eqb (lower kr.1.1) kr.1.1
                     && String.eqb (lower kr.1.2) kr.1.2
                     && negb (is_empty kr.1.2)
                     && match EXTENSION_MEDIA_TYPE !! kr.1.1,
                              EXTENSION_MEDIA_TYPE !! kr.1.2 with
                        | Some d1, Some d2 => bool_decide (d1 = d2)
                        | _, _ => false
                        end)
                  (map_to_list registry) = true) as Hall
      by (vm_compute; reflexivity).
  rewrite forallb_forall in Hall. specialize (Hall _ H). cbn [fst snd] in Hall.
  apply andb_true_iff in Hall as [Hall Hd].
  apply andb_true_iff in Hall as [Hall He].
  apply andb_true_iff in Hall as [H1 H2].
  apply String.eqb_eq in H1, H2. apply negb_true_iff in He.
  split; [exact H1|]. split; [exact H2|]. split; [exact He|].
  destruct (EXTENSION_MEDIA_TYPE !! k.1) as [d1|]; [|discriminate].
  destruct (EXTENSION_MEDIA_TYPE !! k.2) as [d2|]; [|discriminate].
  apply bool_decide_eq_true in Hd. subst d2.
  exists d1. split; reflexivity.
Qed.

Lemma NoDup_get_valid_targets (self : ConversionRegistry) (s : string) :
  NoDup (get_valid_targets self s).
Proof.
  unfold get_valid_targets. rewrite sorted_Permutation.
  apply NoDup_targets_of.
Qed.

Lemma offered_eq (s : string) :
  FormatSelector.offered (Some s) = get_valid_targets registry s.
Proof.
  unfold FormatSelector.offered, FormatSelector.watch_source_format.
  cbv zeta. destruct (get_valid_targets registry s) as [|t l] eqn:E;
    [reflexivity|].
  cbn [FormatSelector.options]. rewrite <- list_fmap_compose.
  apply list_fmap_id.
Qed.

(** X16. The selector offers exactly the valid targets: for a source
    format, the values of its options are the list [get_valid_targets]
    returns, ascending and without duplicates, each labelled with a dot
    and its uppercase form; each of them resolves to a route of the
    default registry; and no option is offered exactly when the source
    has no valid target, or when no source is set. *)
Theorem selector_offers_valid_targets (s : string) :
  FormatSelector.offered (Some s) = get_valid_targets registry s
  ∧ NoDup (FormatSelector.offered (Some s))
  ∧ StronglySorted String.le (FormatSelector.offered (Some s))
  ∧ (∀ v, v ∈ FormatSelector.offered (Some s) →
          ∃ r, get_route registry s v = Return r)
  ∧ (∀ label v,
        (label, v) ∈ FormatSelector.options
                       (FormatSelector.watch_source_format (Some s)) →
        label = code_points "." ++ FormatSelector.upper v)
  ∧ (FormatSelector.offered (Some s) = []
     ↔ ∀ t, is_valid registry s t = false)
  ∧ FormatSelector.offered None = [].
Proof.
  rewrite offered_eq. split_ands.
  - reflexivity.
  - exact (NoDup_get_valid_targets registry s).
  - exact (sorted_StronglySorted (targets_of registry (lower s))).
  - intros v Hv. apply (elem_of_get_valid_targets registry s v) in Hv.
    destruct Hv as [r Hr]. exists r.
    apply (get_route_registered registry s v r).
    destruct (registry_key_domains _ r Hr) as (_ & Hlow & _).
    cbn [fst snd] in Hlow. rewrite Hlow. exact Hr.
  - intros label v. unfold FormatSelector.watch_source_format. cbv zeta.
    destruct (get_valid_targets registry s) as [|t l];
      cbn [FormatSelector.options].
    + now intros H%elem_of_nil.
    + intros (x & [= -> ->] & _)%list_elem_of_fmap. reflexivity.
  - split.
    + intros E t. apply not_true_is_false. intros Hv.
      apply (is_valid_true registry s t) in Hv. destruct Hv as [r Hr].
      assert (lower t ∈ get_valid_targets registry s) as Hin.
      { apply (elem_of_get_valid_targets registry s (lower t)).
        exists r. exact Hr. }
      rewrite E in Hin. now apply elem_of_nil in Hin.
    + intros Hnone. apply elem_of_nil_inv. intros v Hv.
      apply (elem_of_get_valid_targets registry s v) in Hv.
      destruct Hv as [r Hr].
      destruct (registry_key_domains _ r Hr) as (_ & Hlow & _).
      cbn [fst snd] in Hlow.
      specialize (Hnone v). apply not_true_iff_false in Hnone. apply Hnone.
      apply (is_valid_true registry s v). rewrite Hlow. exists r. exact Hr.
  - reflexivity.
Qed.


(** The shown size. *)
Lemma scale_units (n : N) :
  MainScreen.scale ["B"; "KB"; "MB"; "GB"] n
  = if (n <? 1024)%N then (n, "B")
    else if (n / 1024 <? 1024)%N then ((n / 1024)%N, "KB")
    else if (n / 1024 / 1024 <? 1024)%N then ((n / 1024 / 1024)%N, "MB")
    else if (n / 1024 / 1024 / 1024 <? 1024)%N
         then ((n / 1024 / 1024 / 1024)%N, "GB")
    else ((n / 1024 / 1024 / 1024 / 1024)%N, "TB").
Proof. reflexivity. Qed.

Lemma div_floor (n k : N) :
  (n / 1024 ^ k * 1024 ^ k ≤ n < (n / 1024 ^ k + 1) * 1024 ^ k)%N.
Proof.
  assert (1024 ^ k ≠ 0)%N as Hk by (apply N.pow_nonzero; lia).
  pose proof (N.div_mod n (1024 ^ k) Hk) as Hdm.
  pose proof (N.mod_lt n (1024 ^ k) Hk) as Hlt.
  generalize dependent (n mod 1024 ^ k)%N.
  generalize dependent (n / 1024 ^ k)%N.
  generalize dependent (1024 ^ k)%N.
  intros p _ q m Hdm Hlt. split; [nia|]. nia.
Qed.

Lemma div_1024_ge (a b : N) : (b ≤ a / 1024 → 1024 * b ≤ a)%N.
Proof.
  intros Hb. pose proof (N.div_mod a 1024 ltac:(lia)) as Hdm.
  generalize dependent (a mod 1024)%N. generalize dependent (a / 1024)%N.
  intros q Hb m Hdm. lia.
Qed.

(** X17. [_format_size] rounds down to a whole number of units: for a
    size below 2^63 (the range of [st_size]), the value shown is the size
    divided by 1024 to the power of the index of the unit, without
    remainder, so the text always ends in ".0"; the unit is the first of
    B, KB, MB, GB for which the value is below 1024, and TB when there is
    none; the value is below 2^53, so formatting it as a float loses
    nothing. *)
Theorem format_size_rounds_down (n : N) :
  (n < 2 ^ 63)%N →
  ∃ (k : N) (unit : string),
    (k ≤ 4)%N
    ∧ nth_error ["B"; "KB"; "MB"; "GB"; "TB"] (N.to_nat k) = Some unit
    ∧ MainScreen._format_size n
      = pretty (n / 1024 ^ k)%N +:+ ".0 " +:+ unit
    ∧ (n / 1024 ^ k * 1024 ^ k ≤ n < (n / 1024 ^ k + 1) * 1024 ^ k)%N
    ∧ (k < 4 → n / 1024 ^ k < 1024)%N
    ∧ (0 < k → 1024 ^ k ≤ n)%N
    ∧ (n / 1024 ^ k < 2 ^ 53)%N.
Proof.
  intros Hrange.
  assert (n / 1024 ^ 0 = n)%N as H0 by apply N.div_1_r.
  assert (n / 1024 ^ 1 = n / 1024)%N as H1 by reflexivity.
  assert (n / 1024 ^ 2 = n / 1024 / 1024)%N as H2
      by (rewrite N.Div0.div_div; reflexivity).
  assert (n / 1024 ^ 3 = n / 1024 / 1024 / 1024)%N as H3
      by (rewrite !N.Div0.div_div; reflexivity).
  assert (n / 1024 ^ 4 = n / 1024 / 1024 / 1024 / 1024)%N as H4
      by (rewrite !N.Div0.div_div; reflexivity).
  unfold MainScreen._format_size. rewrite scale_units.
  destruct (n <? 1024)%N eqn:C0;
    [apply N.ltb_lt in C0|apply N.ltb_ge in C0].
  { exists 0%N, "B". split; [lia|]. split; [reflexivity|].
    split; [rewrite H0; reflexivity|]. split; [apply div_floor|].
    split; [intros _; rewrite H0; exact C0|]. split; [lia|].
    rewrite H0. eapply N.lt_trans; [exact C0|reflexivity]. }
  destruct (n / 1024 <? 1024)%N eqn:C1;
    [apply N.ltb_lt in C1|apply N.ltb_ge in C1].
  { exists 1%N, "KB". split; [lia|]. split; [reflexivity|].
    split; [rewrite H1; reflexivity|]. split; [apply div_floor|].
    split; [intros _; rewrite H1; exact C1|].
    split; [intros _; change (1024 ^ 1)%N with 1024%N; exact C0|].
    rewrite H1. eapply N.lt_trans; [exact C1|reflexivity]. }
  destruct (n / 1024 / 1024 <? 1024)%N eqn:C2;
    [apply N.ltb_lt in C2|apply N.ltb_ge in C2].
  { exists 2%N, "MB". split; [lia|]. split; [reflexivity|].
    split; [rewrite H2; reflexivity|]. split; [apply div_floor|].
    split; [intros _; rewrite H2; exact C2|].
    split; [intros _; change (1024 ^ 2)%N with (1024 * 1024)%N;
            apply div_1024_ge; exact C1|].
    rewrite H2. eapply N.lt_trans; [exact C2|reflexivity]. }
  destruct (n / 1024 / 1024 / 1024 <? 1024)%N eqn:C3;
    [apply N.ltb_lt in C3|apply N.ltb_ge in C3].
  { exists 3%N, "GB". split; [lia|]. split; [reflexivity|].
    split; [rewrite H3; reflexivity|]. split; [apply div_floor|].
    split; [intros _; rewrite H3; exact C3|].
    split; [intros _; change (1024 ^ 3)%N with (1024 * (1024 * 1024))%N;
            apply div_1024_ge, div_1024_ge; exact C2|].
    rewrite H3. eapply N.lt_trans; [exact C3|reflexivity]. }
  exists 4%N, "TB". split; [lia|]. split; [reflexivity|].
  split; [rewrite H4; reflexivity|]. split; [apply div_floor|].
  split; [lia|].
  split; [intros _;
          change (1024 ^ 4)%N with (1024 * (1024 * (1024 * 1024)))%N;
          apply div_1024_ge, div_1024_ge, div_1024_ge; exact C3|].
  eapply N.lt_trans; [|exact (eq_refl : (2 ^ 23 < 2 ^ 53)%N)].
  apply N.Div0.div_lt_upper_bound. exact Hrange.
Qed.

(** ** The staged batch *)

(** What one click does to the selection. *)
Lemma replace_selection_cases (st_size : Path → Result N) (path : Path)
      (self : MainScreen.State) :
  let out := MainScreen._replace_selection st_size path self in
  (out.2 = None
   ∧ MainScreen._selected_files out.1 = MainScreen._selected_files self
   ∧ MainScreen._detected_media_type out.1
     = MainScreen._detected_media_type self
   ∧ MainScreen.rows out.1 = MainScreen.rows self
   ∧ MainScreen.source_format out.1 = MainScreen.source_format self)
  ∨ (∃ m kept kept_rows,
        get_media_type (ext_of path) = Some m
        ∧ (path ∉ kept)
        ∧ ((kept = MainScreen._selected_files self
            ∧ kept_rows = MainScreen.rows self
            ∧ (MainScreen._detected_media_type self = None
               ∨ MainScreen._detected_media_type self = Some m))
           ∨ (kept = [] ∧ kept_rows = []
              ∧ ∃ d, MainScreen._detected_media_type self = Some d ∧ m ≠ d))
        ∧ MainScreen._selected_files out.1 = kept ++ [path]
        ∧ MainScreen._detected_media_type out.1 = Some m
        ∧ ((∃ exc, out.2 = Some exc ∧ st_size path = Raise exc
                   ∧ MainScreen.rows out.1 = kept_rows
                   ∧ MainScreen.source_format out.1
                     = MainScreen.source_format self)
           ∨ (∃ size, out.2 = None ∧ st_size path = Return size
                      ∧ MainScreen.rows out.1
                        = kept_rows
                            ++ [(name path, "." +:+ ext_of path,
                                 MainScreen._format_size size)]
                      ∧ MainScreen.source_format out.1
                        = ext_of <$> head (kept ++ [path])))).
Proof.
  cbv zeta. destruct self as [sel det st rws src dis].
  unfold MainScreen._replace_selection. cbv zeta.
  destruct (get_media_type (ext_of path)) as [m|] eqn:Hm.
  2:{ left. cbn. auto. }
  assert (∀ sel1 rws1 det1,
             (sel1 = sel ∧ rws1 = rws ∧ (det = None ∨ det = Some m))
             ∨ (sel1 = [] ∧ rws1 = [] ∧ ∃ d, det = Some d ∧ m ≠ d) →
             (sel1 = sel ∧ rws1 = rws ∧ det1 = det) ∨ sel1 = [] →
             let self1 := MainScreen.mkState sel1 det1 st rws1 src dis in
             let out :=
               if bool_decide (path ∈ MainScreen._selected_files self1)
               then (MainScreen._set_status ("Already added: " +:+ name path)
                                            self1, None)
               else
                 match st_size path with
                 | Raise exc =>
                     (MainScreen.mkState (sel1 ++ [path]) (Some m) st rws1
                                         src dis, Some exc)
                 | Return size_bytes =>
                     (MainScreen._set_status
                        ""
                        (MainScreen._refresh_state
                           (MainScreen.mkState
                              (sel1 ++ [path]) (Some m) st
                              (rws1 ++ [(name path, "." +:+ ext_of path,
                                         MainScreen._format_size size_bytes)])
                              src dis)), None)
                 end in
             (out.2 = None
              ∧ MainScreen._selected_files out.1 = sel
              ∧ MainScreen._detected_media_type out.1 = det
              ∧ MainScreen.rows out.1 = rws
              ∧ MainScreen.source_format out.1 = src)
             ∨ (∃ m' kept kept_rows,
                   Some m = Some m'
                   ∧ (path ∉ kept)
                   ∧ ((kept = sel ∧ kept_rows = rws
                       ∧ (det = None ∨ det = Some m'))
                      ∨ (kept = [] ∧ kept_rows = []
                         ∧ ∃ d, det = Some d ∧ m' ≠ d))
                   ∧ MainScreen._selected_files out.1 = kept ++ [path]
                   ∧ MainScreen._detected_media_type out.1 = Some m'
                   ∧ ((∃ exc, out.2 = Some exc ∧ st_size path = Raise exc
                              ∧ MainScreen.rows out.1 = kept_rows
                              ∧ MainScreen.source_format out.1 = src)
                      ∨ (∃ size, out.2 = None ∧ st_size path = Return size
                                 ∧ MainScreen.rows out.1
                                   = kept_rows
                                       ++ [(name path, "." +:+ ext_of path,
                                            MainScreen._format_size size)]
                                 ∧ MainScreen.source_format out.1
                                   = ext_of <$> head (kept ++ [path])))))
    as Hgen.
  { intros sel1 rws1 det1 Hkept Hsame. cbv zeta. cbn [MainScreen._selected_files].
    destruct (bool_decide (path ∈ sel1)) eqn:Hin.
    - apply bool_decide_eq_true in Hin. left. cbn.
      destruct Hsame as [(-> & -> & ->)| ->]; [auto|].
      now apply elem_of_nil in Hin.
    - apply bool_decide_eq_false in Hin. right. exists m, sel1, rws1.
      split; [reflexivity|]. split; [exact Hin|]. split; [exact Hkept|].
      destruct (st_size path) as [size|exc]; cbn [fst snd].
      + unfold MainScreen._refresh_state, MainScreen._set_status.
        cbn [MainScreen._selected_files MainScreen._detected_media_type
             MainScreen.rows MainScreen.source_format MainScreen.status
             MainScreen.convert_disabled].
        destruct (sel1 ++ [path]) as [|first tl] eqn:E.
        { now destruct sel1. }
        cbn. split; [reflexivity|]. split; [reflexivity|].
        right. exists size. auto.
      + cbn. split; [reflexivity|]. split; [reflexivity|].
        left. exists exc. auto. }
  cbn [MainScreen._detected_media_type].
  destruct det as [d|].
  - destruct (bool_decide (m ≠ d)) eqn:Hd.
    + apply bool_decide_eq_true in Hd.
      apply (Hgen [] [] None); [right; eauto|right; reflexivity].
    + apply bool_decide_eq_false in Hd. apply dec_stable in Hd. subst d.
      apply (Hgen sel rws (Some m)); left; auto.
  - apply (Hgen sel rws None); left; auto.
Qed.

Lemma replace_selection_keeps_single_domain
      (st_size : Path → Result N) (path : Path) (self : MainScreen.State) :
  MainScreen.single_domain self →
  MainScreen.single_domain (MainScreen._replace_selection st_size path self).1.
Proof.
  intros (Hnd & Hiff & Hall).
  pose proof (replace_selection_cases st_size path self) as H. cbv zeta in H.
  unfold MainScreen.single_domain.
  destruct H as [(_ & -> & -> & _)
                |(m & kept & kept_rows & Hm & Hnot & Hkept & -> & -> & _)].
  - auto.
  - split; [|split].
    + apply NoDup_app. split; [|split].
      * destruct Hkept as [(-> & _)|(-> & _)]; [exact Hnd|constructor].
      * intros x Hx ->%list_elem_of_singleton. contradiction.
      * apply NoDup_singleton.
    + split; [|discriminate]. now destruct kept.
    + intros f [Hf|Hf]%elem_of_app;
        [|apply list_elem_of_singleton in Hf; subst f; exact Hm].
      destruct Hkept as [(-> & _ & Hdet)|(-> & _)].
      * rewrite (Hall f Hf). destruct Hdet as [Hdet|Hdet]; [|exact Hdet].
        apply Hiff in Hdet. rewrite Hdet in Hf. now apply elem_of_nil in Hf.
      * now apply elem_of_nil in Hf.
Qed.

Lemma replace_selection_keeps_in_step
      (st_size : Path → Result N) (path : Path) (self : MainScreen.State) :
  MainScreen.in_step self →
  (MainScreen._replace_selection st_size path self).2 = None →
  MainScreen.in_step (MainScreen._replace_selection st_size path self).1.
Proof.
  intros (Hrows & Hsrc) Hnone.
  pose proof (replace_selection_cases st_size path self) as H. cbv zeta in H.
  unfold MainScreen.in_step.
  destruct H as [(_ & -> & _ & -> & ->)
                |(m & kept & kept_rows & _ & _ & Hkept & -> & _ & Hout)].
  - auto.
  - destruct Hout as [(exc & Hexc & _)|(size & _ & _ & -> & ->)];
      [congruence|].
    split; [|reflexivity]. rewrite !fmap_app. cbn.
    destruct Hkept as [(-> & -> & _)|(-> & -> & _)]; [|reflexivity].
    now rewrite Hrows.
Qed.

Lemma select_all_invariants (st_size : Path → Result N) (clicks : list Path) :
  ∀ self,
    MainScreen.single_domain self →
    MainScreen.single_domain (MainScreen.select_all st_size clicks self).1
    ∧ (MainScreen.in_step self →
       (MainScreen.select_all st_size clicks self).2 = None →
       MainScreen.in_step (MainScreen.select_all st_size clicks self).1).
Proof.
  induction clicks as [|path rest IH]; intros self Hsd; [cbn; auto|].
  cbn [MainScreen.select_all].
  pose proof (replace_selection_keeps_single_domain st_size path self Hsd)
    as Hsd1.
  pose proof (replace_selection_keeps_in_step st_size path self) as Hstep.
  destruct (MainScreen._replace_selection st_size path self) as [self1 [exc|]];
    cbn [fst snd] in *.
  - split; [exact Hsd1|discriminate].
  - destruct (IH self1 Hsd1) as [H1 H2]. split; [exact H1|].
    intros Hin Hnone. apply H2; [|exact Hnone]. now apply Hstep.
Qed.

Lemma mounted_invariants :
  MainScreen.single_domain MainScreen.mounted
  ∧ MainScreen.in_step MainScreen.mounted.
Proof.
  unfold MainScreen.single_domain, MainScreen.in_step. cbn.
  split_ands; try reflexivity; try constructor; try tauto.
  intros f Hf. now apply elem_of_nil in Hf.
Qed.

(** X18. Whatever files the user clicks, the staged batch is of one
    media domain: it has no duplicates, every staged file has the detected
    media type, and the detected type is unset exactly when nothing is
    staged, even when [stat] fails on a file; and as long as no handler
    raised, the table has one row per staged file, in order, and the
    selector is fed the extension of the first staged file. *)
Theorem staged_batch_single_domain
        (st_size : Path → Result N) (clicks : list Path) :
  let out := MainScreen.select_all st_size clicks MainScreen.mounted in
  NoDup (MainScreen._selected_files out.1)
  ∧ (MainScreen._selected_files out.1 = []
     ↔ MainScreen._detected_media_type out.1 = None)
  ∧ (∀ f, f ∈ MainScreen._selected_files out.1 →
          get_media_type (ext_of f) = MainScreen._detected_media_type out.1)
  ∧ (out.2 = None →
     (λ row : string * string * string, row.1.1) <$> MainScreen.rows out.1
     = name <$> MainScreen._selected_files out.1
     ∧ MainScreen.source_format out.1
       = ext_of <$> head (MainScreen._selected_files out.1)).
Proof.
  cbv zeta. destruct mounted_invariants as [Hsd Hin].
  destruct (select_all_invariants st_size clicks MainScreen.mounted Hsd)
    as [(H1 & H2 & H3) H4].
  split; [exact H1|]. split; [exact H2|]. split; [exact H3|].
  intros Hnone. exact (H4 Hin Hnone).
Qed.

(** ** From the main screen to the driver *)

(** X19. In the flow of the interface the cross-domain error cannot
    arise. After any clicks that raised no exception, if the user picks a
    target the selector offers, pressing "convert" pushes a progress
    screen for the staged files and that target; the batch is not empty
    and has no duplicates; its first file has a route to the target; and
    every file of the batch either has a route or fails with the
    not-found error, never with the cross-domain one. *)
Theorem staged_batch_never_cross_domain
        (st_size : Path → Result N) (clicks : list Path)
        (self : MainScreen.State) (target log : string) :
  MainScreen.select_all st_size clicks MainScreen.mounted = (self, None) →
  target ∈ FormatSelector.offered (MainScreen.source_format self) →
  ∃ first rest r,
    MainScreen.on_convert_pressed (Some target) log self
    = Some (Driver.init (first :: rest) target log)
    ∧ MainScreen._selected_files self = first :: rest
    ∧ NoDup (first :: rest)
    ∧ get_route registry (ext_of first) target = Return r
    ∧ ∀ f, f ∈ first :: rest →
           (∃ r', get_route registry (ext_of f) target = Return r')
           ∨ get_route registry (ext_of f) target
             = Raise (ValueError (no_route_message (ext_of f) target)).
Proof.
  intros Hsel Hoffer.
  destruct mounted_invariants as [Hsd0 Hin0].
  destruct (select_all_invariants st_size clicks MainScreen.mounted Hsd0)
    as [Hsd Hin].
  rewrite Hsel in Hsd, Hin. cbn [fst snd] in Hsd, Hin.
  destruct (Hin Hin0 eq_refl) as [_ Hsrc].
  destruct Hsd as (Hnd & Hiff & Hall).
  destruct (MainScreen._selected_files self) as [|first rest] eqn:Efiles.
  { cbn in Hsrc. rewrite Hsrc in Hoffer. now apply elem_of_nil in Hoffer. }
  cbn in Hsrc. rewrite Hsrc, offered_eq in Hoffer.
  apply (elem_of_get_valid_targets registry (ext_of first) target) in Hoffer.
  destruct Hoffer as [r Hr].
  destruct (registry_key_domains _ r Hr) as (_ & Hlow & Hne & d & Hd1 & Hd2).
  cbn [fst snd] in Hlow, Hne, Hd1, Hd2.
  assert (get_media_type (ext_of first) = Some d) as Hfirst by exact Hd1.
  assert (MainScreen._detected_media_type self = Some d) as Hdet.
  { rewrite <- (Hall first) by (apply elem_of_cons; auto). exact Hfirst. }
  exists first, rest, r. split_ands.
  - unfold MainScreen.on_convert_pressed. rewrite Efiles, Hne. reflexivity.
  - reflexivity.
  - exact Hnd.
  - apply (get_route_registered registry (ext_of first) target r).
    rewrite Hlow. exact Hr.
  - intros f Hf.
    destruct (registry !! (lower (ext_of f), lower target)) as [r'|] eqn:Ef.
    + left. exists r'.
      exact (get_route_registered registry (ext_of f) target r' Ef).
    + right. apply (get_route_not_found registry (ext_of f) target Ef).
      right. right. rewrite (Hall f Hf), Hdet.
      unfold get_media_type. rewrite Hlow. symmetry. exact Hd2.
Qed.

(** X5. One click on a file of a known media type whose size can be
    read. If the batch is of another media type, the batch and the table
    are reset to that file alone and the selector is fed its extension; if
    the batch is empty or of the same type, a file that is not yet staged
    is appended to the batch and to the table (the earlier files stay),
    and a file that is already staged changes nothing but the status
    line. *)
Theorem click_resets_or_extends
        (st_size : Path → Result N) (path : Path) (self : MainScreen.State)
        (m : MediaType) (size : N) :
  get_media_type (ext_of path) = Some m →
  st_size path = Return size →
  let out := MainScreen._replace_selection st_size path self in
  let row := (name path, "." +:+ ext_of path, MainScreen._format_size size) in
  out.2 = None
  ∧ (∀ d, MainScreen._detected_media_type self = Some d → m ≠ d →
          MainScreen._selected_files out.1 = [path]
          ∧ MainScreen._detected_media_type out.1 = Some m
          ∧ MainScreen.rows out.1 = [row]
          ∧ MainScreen.source_format out.1 = Some (ext_of path)
          ∧ MainScreen.status out.1 = "")
  ∧ (MainScreen._detected_media_type self = None
     ∨ MainScreen._detected_media_type self = Some m →
     (path ∉ MainScreen._selected_files self →
      MainScreen._selected_files out.1
      = MainScreen._selected_files self ++ [path]
      ∧ MainScreen._detected_media_type out.1 = Some m
      ∧ MainScreen.rows out.1 = MainScreen.rows self ++ [row]
      ∧ MainScreen.status out.1 = "")
     ∧ (path ∈ MainScreen._selected_files self →
        MainScreen._selected_files out.1 = MainScreen._selected_files self
        ∧ MainScreen.rows out.1 = MainScreen.rows self
        ∧ MainScreen.status out.1 = "Already added: " +:+ name path)).
Proof.
  intros Hm Hsize. cbv zeta.
  destruct self as [sel det st rws src dis].
  unfold MainScreen._replace_selection. cbv zeta. rewrite Hm.
  cbn [MainScreen._detected_media_type].
  assert (∀ sel1 rws1 det1,
             let out :=
               if bool_decide (path ∈ sel1)
               then (MainScreen._set_status
                       ("Already added: " +:+ name path)
                       (MainScreen.mkState sel1 det1 st rws1 src dis), None)
               else
                 match st_size path with
                 | Raise exc =>
                     (MainScreen.mkState (sel1 ++ [path]) (Some m) st rws1
                                         src dis, Some exc)
                 | Return size_bytes =>
                     (MainScreen._set_status
                        ""
                        (MainScreen._refresh_state
                           (MainScreen.mkState
                              (sel1 ++ [path]) (Some m) st
                              (rws1 ++ [(name path, "." +:+ ext_of path,
                                         MainScreen._format_size size_bytes)])
                              src dis)), None)
                 end in
             out.2 = None
             ∧ (path ∉ sel1 →
                MainScreen._selected_files out.1 = sel1 ++ [path]
                ∧ MainScreen._detected_media_type out.1 = Some m
                ∧ MainScreen.rows out.1
                  = rws1 ++ [(name path, "." +:+ ext_of path,
                              MainScreen._format_size size)]
                ∧ MainScreen.source_format out.1
                  = ext_of <$> head (sel1 ++ [path])
                ∧ MainScreen.status out.1 = "")
             ∧ (path ∈ sel1 →
                MainScreen._selected_files out.1 = sel1
                ∧ MainScreen.rows out.1 = rws1
                ∧ MainScreen.status out.1 = "Already added: " +:+ name path))
    as Hgen.
  { intros sel1 rws1 det1. cbv zeta. rewrite Hsize.
    destruct (bool_decide (path ∈ sel1)) eqn:Hin.
    - apply bool_decide_eq_true in Hin. cbn. split; [reflexivity|].
      split; [intros Hn; contradiction|auto].
    - apply bool_decide_eq_false in Hin. cbn [fst snd].
      split; [reflexivity|]. split; [|intros Hy; contradiction].
      intros _. unfold MainScreen._refresh_state, MainScreen._set_status.
      cbn [MainScreen._selected_files MainScreen._detected_media_type
           MainScreen.rows MainScreen.source_format MainScreen.status
           MainScreen.convert_disabled].
      destruct (sel1 ++ [path]) as [|first tl] eqn:E; [now destruct sel1|].
      cbn. auto. }
  destruct det as [d|].
  - destruct (bool_decide (m ≠ d)) eqn:Hd.
    + apply bool_decide_eq_true in Hd.
      destruct (Hgen [] [] None) as (H1 & H2 & _).
      cbn [MainScreen._clear_selection MainScreen._selected_files
           MainScreen.status MainScreen.source_format
           MainScreen.convert_disabled] in *.
      split; [exact H1|]. split.
      * intros d' _ _.
        destruct H2 as (Ha & Hb & Hc & He & Hf);
          [intros Hx; now apply elem_of_nil in Hx|].
        auto.
      * intros [E|[= E]]; [discriminate|]. now destruct Hd.
    + apply bool_decide_eq_false in Hd. apply dec_stable in Hd. subst d.
      destruct (Hgen sel rws (Some m)) as (H1 & H2 & H3).
      split; [exact H1|]. split.
      * intros d' [= <-] Hne. now destruct Hne.
      * intros _. split; [|exact H3].
        intros Hn. destruct (H2 Hn) as (Ha & Hb & Hc & _ & Hf). auto.
  - destruct (Hgen sel rws None) as (H1 & H2 & H3).
    split; [exact H1|]. split; [intros d' [=]|].
    intros _. split; [|exact H3].
    intros Hn. destruct (H2 Hn) as (Ha & Hb & Hc & _ & Hf). auto.
Qed.

(** ** The session summary *)





(** ** The theorems above on concrete inputs *)

Lemma quiet_all_succeed : all_succeed Examples.quiet.
Proof. unfold all_succeed, Examples.quiet. cbn. split_ands; eauto. Qed.

Lemma run_accounts_for_every_file_witness :
  ∃ self fs',
    _run_conversions Scenario.world
                     (Driver.init Scenario.batch "jpg" "converter.log")
                     Scenario.disk
    = Finished self fs'
    ∧ success (_stats self) + errors (_stats self) = 3
    ∧ count_calls is_advance (ui self) = 3.
Proof.
  destruct (run_accounts_for_every_file
              Scenario.world Scenario.batch "jpg" "converter.log"
              Scenario.disk)
    as (self & fs' & Hrun & Hsum & Hadv & _).
  - intros i _. destruct i; cbn; eauto.
  - exists self, fs'. split; [exact Hrun|]. split; [exact Hsum|exact Hadv].
Defined.

Lemma blocked_run_waits_at_prompt_witness :
  ∃ j file shown,
    Scenario.batch !! j = Some file
    ∧ pressed Examples.silent j = None
    ∧ ui (screen_of (_run_conversions
                       Examples.silent
                       (Driver.init Scenario.batch "jpg" "converter.log")
                       Scenario.disk))
      = shown ++ [ShowKeepPrompt file].
Proof.
  destruct (blocked_run_waits_at_prompt
              Examples.silent Scenario.batch "jpg" "converter.log"
              Scenario.disk
              (disk_of (_run_conversions
                          Examples.silent
                          (Driver.init Scenario.batch "jpg" "converter.log")
                          Scenario.disk))
              (screen_of (_run_conversions
                            Examples.silent
                            (Driver.init Scenario.batch "jpg" "converter.log")
                            Scenario.disk)))
    as (j & file & shown & Hj & Hp & _ & _ & Hui & _).
  - vm_compute. reflexivity.
  - exists j, file, shown. split; [exact Hj|]. split; [exact Hp|exact Hui].
Defined.

Lemma run_removes_only_on_request_witness :
  ∃ j r output,
    Scenario.batch !! j = Some Scenario.c_png
    ∧ pressed Examples.delete_all j = Some DeleteOriginal
    ∧ get_route registry (ext_of Scenario.c_png) "jpg" = Return r
    ∧ convert Examples.delete_all j (converter_class r) Scenario.c_png "jpg"
      = Return output.
Proof.
  apply (run_removes_only_on_request
           Examples.delete_all
           (Driver.init Scenario.batch "jpg" "converter.log")
           Scenario.disk Scenario.c_png).
  - apply (bool_decide_unpack _). vm_compute. exact I.
  - intros H. apply (bool_decide_pack _) in H. vm_compute in H. exact H.
Defined.

Lemma built_registry_routes_match_keys_witness :
  lower "PNG" ∈ get_valid_targets
                  (register Registry.init
                            (mkRoute "Heic" "Png" ImageConverter false))
                  "HEIC"
  ↔ is_valid (register Registry.init
                       (mkRoute "Heic" "Png" ImageConverter false))
             "HEIC" "PNG" = true.
Proof.
  refine (proj2 (proj2 (built_registry_routes_match_keys
                          (register Registry.init
                                    (mkRoute "Heic" "Png" ImageConverter false))
                          "HEIC" "PNG" _))).
  apply by_register_step, by_register_init.
Defined.

Lemma get_output_path_next_to_source_witness :
  ∃ stem,
    stem ≠ ""
    ∧ name Scenario.a_heic = stem +:+ suffix Scenario.a_heic
    ∧ get_output_path Scenario.a_heic "JPG"
      = Return (mkPath "/photos" (stem +:+ "." +:+ lower "JPG")).
Proof.
  destruct (get_output_path_next_to_source Scenario.a_heic "JPG")
    as (stem & H1 & H2 & H3 & _).
  - discriminate.
  - reflexivity.
  - exists stem. split; [exact H1|]. split; [exact H2|exact H3].
Defined.

Lemma converters_return_output_path_witness :
  get_output_path Scenario.a_heic "JPG" = Return Scenario.a_jpg.
Proof.
  apply (converters_return_output_path
           Examples.quiet ImageConverter Scenario.a_heic Scenario.a_jpg "JPG").
  vm_compute. reflexivity.
Defined.

Lemma jpeg_saved_without_alpha_witness :
  ∃ pillow_format opened saved,
    _PILLOW_FORMATS !! lower "JPG" = Some pillow_format
    ∧ image_open Examples.quiet Scenario.c_png = Return opened
    ∧ (pillow_format = "JPEG" →
       image_mode Examples.quiet saved ∉ flattened_modes).
Proof.
  destruct (jpeg_saved_without_alpha
              Examples.quiet Scenario.c_png Scenario.c_jpg "JPG")
    as (pf & opened & saved & H1 & H2 & _ & H4 & _).
  - intros i i' [= <-]. reflexivity.
  - vm_compute. reflexivity.
  - exists pf, opened, saved. split; [exact H1|]. split; [exact H2|exact H4].
Defined.

Lemma default_routes_accepted_by_converters_witness :
  ∃ out,
    convert_with Examples.quiet ImageConverter Scenario.a_heic "JPG"
    = Return out
    ∧ parent out = "/photos"
    ∧ ext_of out = "jpg"
    ∧ out ≠ Scenario.a_heic.
Proof.
  apply (default_routes_accepted_by_converters
           Examples.quiet Scenario.a_heic "JPG"
           (mkRoute "heic" "jpg" ImageConverter true)).
  - exact quiet_all_succeed.
  - discriminate.
  - vm_compute. reflexivity.
Defined.

Lemma routed_batch_converts_completely_witness :
  ∃ self fs',
    _run_conversions Examples.delete_all
                     (Driver.init [Scenario.a_heic; Scenario.c_png] "jpg"
                                  "converter.log")
                     Scenario.disk
    = Finished self fs'
    ∧ errors (_stats self) = 0
    ∧ success (_stats self) = 2.
Proof.
  destruct (routed_batch_converts_completely
              Examples.quiet (λ _, Some DeleteOriginal)
              [Scenario.a_heic; Scenario.c_png] "jpg" "converter.log"
              Scenario.disk)
    as (self & fs' & Hrun & Herr & Hsucc & _).
  - exact quiet_all_succeed.
  - intros f Hf. apply elem_of_cons in Hf as [->|Hf];
      [|apply list_elem_of_singleton in Hf; subst f];
      (split; [discriminate|vm_compute; reflexivity]).
  - intros i _. eauto.
  - exists self, fs'. split; [exact Hrun|]. split; [exact Herr|exact Hsucc].
Defined.

Lemma staged_batch_never_cross_domain_witness :
  ∃ first rest r,
    MainScreen._selected_files
      (MainScreen.select_all Examples.sizes Examples.clicks
                             MainScreen.mounted).1
    = first :: rest
    ∧ get_route registry (ext_of first) "jpg" = Return r.
Proof.
  destruct (staged_batch_never_cross_domain
              Examples.sizes Examples.clicks
              (MainScreen.select_all Examples.sizes Examples.clicks
                                     MainScreen.mounted).1
              "jpg" "converter.log")
    as (first & rest & r & _ & Hfiles & _ & Hr & _).
  - vm_compute. reflexivity.
  - apply (bool_decide_unpack _). vm_compute. exact I.
  - exists first, rest, r. split; [exact Hfiles|exact Hr].
Defined.

Lemma click_resets_or_extends_witness :
  MainScreen._selected_files
    (MainScreen._replace_selection Examples.sizes Scenario.a_heic
                                   MainScreen.mounted).1
  = [Scenario.a_heic].
Proof.
  destruct (click_resets_or_extends
              Examples.sizes Scenario.a_heic MainScreen.mounted IMAGE 2048%N)
    as (_ & _ & H).
  - vm_compute. reflexivity.
  - reflexivity.
  - destruct H as [H _]; [left; reflexivity|].
    destruct H as [H _]; [intros Hin; now apply elem_of_nil in Hin|].
    exact H.
Defined.

Lemma format_size_rounds_down_witness :
  ∃ (k : N) (unit : string),
    (k ≤ 4)%N
    ∧ MainScreen._format_size 1536
      = pretty (1536 / 1024 ^ k)%N +:+ ".0 " +:+ unit.
Proof.
  destruct (format_size_rounds_down 1536) as (k & unit & Hk & _ & Hf & _).
  - reflexivity.
  - exists k, unit. split; [exact Hk|exact Hf].
Defined.
